(** * clickideia-api: card persistence, card controller and route table

    A shallow embedding of the card slice of the API:
    - [Schema]          server/models/cards.js (the [cards] entity);
    - [Store]           the relational store behind the ORM, as an in-memory
                        table with an AUTO_INCREMENT counter, a clock and a
                        trace of what the request did;
    - [Orm]             the calls of the ORM that the card code makes;
    - [CardPersistence] server/persistence/cardPersistence.js;
    - [CardController]  server/controllers/cardController.js;
    - [Router]          server/routes/index.js;
    - [Observe]         what is seen of a request: events, responses, the
                        well-formed store;
    - [Sample]          a dialect, date helpers and small stores to run the
                        code on.

    The store is reliable: a call fails only for a reason that the data or
    the call itself decides (a duplicate primary key, a value the column
    type rejects, a column that does not exist, options that hold no
    transaction handle where one is expected); the connection is never
    lost, so a [catch] block that only such a loss can reach is not
    entered.  A scan of the table returns the rows in the order of the
    primary key.  What the database does with values of mixed types is left
    to a [SqlDialect]; the date helpers of server/helpers/date_helpers.js
    are the fields of [DateHelpers]. *)

From stdpp Require Import base numbers strings list sorting gmap fin_maps pretty.
From Stdlib Require Import Ascii DecimalString.

Local Open Scope string_scope.
Local Open Scope list_scope.
Local Open Scope Z_scope.

(** ** JavaScript values *)

Module Js.

(** The values that reach the card code: request fields are JSON scalars,
    path and query-string parameters are strings, a missing property reads
    as [undefined]. *)
Inductive JsVal :=
| JUndefined
| JNull
| JBool (b : bool)
| JNum (n : Z)
| JStr (s : string).

#[global] Instance JsVal_eq_dec : EqDecision JsVal.
Proof. solve_decision. Defined.

(** [if (v)] *)
Definition truthy (v : JsVal) : bool :=
  match v with
  | JUndefined | JNull => false
  | JBool b => b
  | JNum n => negb (n =? 0)
  | JStr s => negb (String.eqb s "")
  end.

(** [a !== b] on scalars *)
Definition strict_neq (a b : JsVal) : bool := negb (bool_decide (a = b)).

(** [o.k] on a plain object: a missing key reads as [undefined] *)
Definition prop (o : gmap string JsVal) (k : string) : JsVal :=
  default JUndefined (o !! k).

(** [a[i] = v]: inside the array the slot is replaced; at [i = a.length]
    the array grows by one; further out JavaScript leaves holes, written
    here as [0] (the counting loop never gets there, see
    [count_loop_index]). *)
Definition array_set (i : nat) (v : Z) (a : list Z) : list Z :=
  if decide (i < length a)%nat then <[i := v]> a
  else a ++ replicate (i - length a) 0 ++ [v].

(** Calling a one-parameter function with two arguments: the second one is
    dropped. *)
Definition call_with_extra_argument {A B C} (f : A -> B) (a : A) (_ : C) : B :=
  f a.

End Js.
Export Js.

(** ** server/models/cards.js *)

Module Schema.

Inductive DataType := INTEGER | STRING.

Record Attribute := {
  attr_name : string;
  attr_type : DataType;
  primaryKey : bool;
  autoIncrement : bool
}.

(** [sequelize.define('cards', {...}, { timestamps: false })] *)
Definition Card_attributes : list Attribute :=
  [ {| attr_name := "cardId"; attr_type := INTEGER; primaryKey := true; autoIncrement := true |};
    {| attr_name := "userId"; attr_type := INTEGER; primaryKey := false; autoIncrement := false |};
    {| attr_name := "title"; attr_type := STRING; primaryKey := false; autoIncrement := false |};
    {| attr_name := "content"; attr_type := STRING; primaryKey := false; autoIncrement := false |};
    {| attr_name := "status"; attr_type := STRING; primaryKey := false; autoIncrement := false |};
    {| attr_name := "createdAt"; attr_type := STRING; primaryKey := false; autoIncrement := false |};
    {| attr_name := "updatedAt"; attr_type := STRING; primaryKey := false; autoIncrement := false |} ].

Definition timestamps : bool := false.

(** [Card.belongsTo(models.users, { foreignKey: 'userId', as: 'userCard' })] *)
Record BelongsTo := { foreignKey : string; as_ : string }.
Definition Card_associate : BelongsTo := {| foreignKey := "userId"; as_ := "userCard" |}.

Definition attribute (k : string) : option Attribute :=
  List.find (fun a => String.eqb (attr_name a) k) Card_attributes.

End Schema.
Export Schema.

(** ** The store behind the ORM *)

Module Store.

(** A value held by a column. *)
Inductive DbVal :=
| DNull
| DInt (n : Z)
| DStr (s : string).

#[global] Instance DbVal_eq_dec : EqDecision DbVal.
Proof. solve_decision. Defined.

(** What the database does where the client's value and the column differ in
    type: [sql_eq d v] is the outcome of [column = v] on a row holding [d];
    [sql_cast t v] is what a column of type [t] stores for [v], or [None]
    when the value is rejected. *)
Class SqlDialect := {
  sql_eq : DbVal -> JsVal -> bool;
  sql_cast : DataType -> JsVal -> option DbVal
}.

(** server/helpers/date_helpers.js: both format an instant (milliseconds
    since the epoch). *)
Class DateHelpers := {
  formatDatetime : Z -> string;
  formatDatabaseDatetime : Z -> string
}.

(** A row of [cards]. *)
Record Card := {
  cardId : Z;
  userId : DbVal;
  title : DbVal;
  content : DbVal;
  status : DbVal;
  createdAt : DbVal;
  updatedAt : DbVal
}.

#[global] Instance Card_eq_dec : EqDecision Card.
Proof. solve_decision. Defined.

(** The column [k] of a row; [None] when [cards] has no such column. *)
Definition get_field (k : string) (c : Card) : option DbVal :=
  if String.eqb k "cardId" then Some (DInt (cardId c))
  else if String.eqb k "userId" then Some (userId c)
  else if String.eqb k "title" then Some (title c)
  else if String.eqb k "content" then Some (content c)
  else if String.eqb k "status" then Some (status c)
  else if String.eqb k "createdAt" then Some (createdAt c)
  else if String.eqb k "updatedAt" then Some (updatedAt c)
  else None.

(** Modelled from the spec: the [users] entity (server/models/users.js), of
    which a card hydrates "its owning user's public fields": a primary key
    and the remaining fields by name. *)
Record User := {
  user_userId : Z;
  user_fields : list (string * DbVal)
}.

#[global] Instance User_eq_dec : EqDecision User.
Proof. solve_decision. Defined.

(** [const userCard = { model: User, as: 'userCard' }] *)
Inductive Association := userCard.

#[global] Instance Association_eq_dec : EqDecision Association.
Proof. solve_decision. Defined.

(** [{ [Op.and]: { [Op.eq]: v } }] *)
Inductive Clause := OpAnd_OpEq (v : JsVal).

#[global] Instance Clause_eq_dec : EqDecision Clause.
Proof. solve_decision. Defined.

(** The options object of [findAll] and [findOne]; a property that was never
    assigned is [None] (or the empty list). *)
Record Query := {
  q_subQuery : option bool;
  q_distinct : option bool;
  q_duplicating : option bool;
  q_include : list Association;
  q_where : option (gmap string Clause)
}.

(** The options object of the grouped count:
    [attributes: [g, [fn('count', col(c)), 'countCards']], group: [g],
     order: literal(g DESC)] and an optional [where]. *)
Record GroupQuery := {
  g_group : string;
  g_count_col : string;
  g_order_desc : bool;
  g_where : option (gmap string Clause)
}.

(** What a query hands back: the row and, when the association was
    included, the owning user ([null] when no user has that key). *)
Inductive Hydration :=
| NotIncluded
| Included (u : option User).

Record Instance := {
  dataValues : Card;
  userCard_of : Hydration
}.

(** A row of the grouped count: [dataValues.status] and
    [dataValues.countCards], the count being a number. *)
Record CountRow := {
  row_status : DbVal;
  countCards : Z
}.

(** The values [Card.create] is given. *)
Record CardValues := {
  v_cardId : JsVal;
  v_userId : JsVal;
  v_title : JsVal;
  v_content : JsVal;
  v_status : JsVal;
  v_createdAt : JsVal;
  v_updatedAt : JsVal
}.

(** The values [instance.update] is given. *)
Record CardChanges := {
  ch_userId : JsVal;
  ch_title : JsVal;
  ch_content : JsVal;
  ch_status : JsVal;
  ch_updatedAt : JsVal
}.

(** The payload of an error response. *)
Record ErrorPayload := {
  code : Z;
  type : string;
  message : string;
  date : string
}.

(** What [res.send] is given. *)
Inductive Body :=
| BInstance (i : Instance)
| BBuckets (toDoCards doingCards doneCards : list Instance)
| BCounts (cardsTotal : list Z)
| BText (s : string)
| BError (p : ErrorPayload).

(** What a request does, in order. *)
Inductive Event :=
| EvTransaction
| EvCommit
| EvRollback
| EvCreate (v : CardValues)
| EvFindAll (q : Query)
| EvFindAllGrouped (q : GroupQuery)
| EvFindByPk (id : JsVal) (include : list Association)
| EvFindOne (q : Query)
| EvUpdate (pk : Z) (ch : CardChanges)
| EvDestroy (pk : Z)
| EvDestroyAll
| EvLog (category action severity : string)
| EvSend (status : Z) (b : Body).

Record World := {
  cards : list Card;              (* the table, as a scan returns it *)
  users : list User;
  next_id : Z;                    (* the AUTO_INCREMENT counter *)
  issued : list Z;                (* every primary key ever stored *)
  clock : Z;                      (* what [new Date()] reads next *)
  ticks : list Z;                 (* how far the clock moves after each reading *)
  snapshot : option (list Card);  (* the table when the open transaction began *)
  trace : list Event
}.

Definition set_cards (cs : list Card) (w : World) : World :=
  {| cards := cs; users := users w; next_id := next_id w; issued := issued w;
     clock := clock w; ticks := ticks w; snapshot := snapshot w; trace := trace w |}.

Definition set_counter (n : Z) (ids : list Z) (w : World) : World :=
  {| cards := cards w; users := users w; next_id := n; issued := ids;
     clock := clock w; ticks := ticks w; snapshot := snapshot w; trace := trace w |}.

Definition set_clock (t : Z) (ts : list Z) (w : World) : World :=
  {| cards := cards w; users := users w; next_id := next_id w; issued := issued w;
     clock := t; ticks := ts; snapshot := snapshot w; trace := trace w |}.

Definition set_snapshot (s : option (list Card)) (w : World) : World :=
  {| cards := cards w; users := users w; next_id := next_id w; issued := issued w;
     clock := clock w; ticks := ticks w; snapshot := s; trace := trace w |}.

Definition set_trace (t : list Event) (w : World) : World :=
  {| cards := cards w; users := users w; next_id := next_id w; issued := issued w;
     clock := clock w; ticks := ticks w; snapshot := snapshot w; trace := t |}.

(** *** Effects: state and exceptions *)

Inductive Error :=
| UniqueConstraintError
| ValidationError
| DatabaseError
| TypeError
| URIError.

Inductive Result (A : Type) :=
| Ok (a : A)
| Throw (e : Error).
Arguments Ok {A} a.
Arguments Throw {A} e.

Definition M (A : Type) : Type := World -> Result A * World.

Definition ret {A} (a : A) : M A := fun w => (Ok a, w).

Definition throw {A} (e : Error) : M A := fun w => (Throw e, w).

Definition bind {A B} (m : M A) (k : A -> M B) : M B :=
  fun w => match m w with
           | (Ok a, w') => k a w'
           | (Throw e, w') => (Throw e, w')
           end.

(** [try { m } catch (error) { h error }]: what [m] did to the world before
    it threw stays done. *)
Definition try_catch {A} (m : M A) (h : Error -> M A) : M A :=
  fun w => match m w with
           | (Ok a, w') => (Ok a, w')
           | (Throw e, w') => h e w'
           end.

Definition emit (e : Event) : M unit :=
  fun w => (Ok tt, set_trace (trace w ++ [e]) w).

Definition get_world : M World := fun w => (Ok w, w).

Definition modify (f : World -> World) : M unit := fun w => (Ok tt, f w).

Definition lift_result {A} (r : Result A) : M A := fun w => (r, w).

End Store.
Export Store.

Notation "x <~ m ;; k" := (bind m (fun x => k))
  (at level 100, m at next level, right associativity, only parsing).
Notation "m ;;; k" := (bind m (fun _ => k))
  (at level 100, right associativity, only parsing).

(** ** The ORM calls the card code makes *)

Module Orm.

(** *** Transactions *)

Inductive Transaction := TransactionHandle.

(** What the card code passes under the name [transaction]: the object
    [{ transaction }] that the controller builds around the handle, or an
    object that holds such an object where the handle should be. *)
Inductive Options :=
| options_with (transaction : Transaction)
| options_around (transaction : Options).

(** [options.transaction] as a statement needs it: the handle, whose
    connection takes the statement.  An object that is no handle has no
    connection, and the call fails before anything reaches the database. *)
Definition connection_of (options : Options) : M Transaction :=
  match options with
  | options_with t => ret t
  | options_around _ => throw TypeError
  end.

Section Orm.
Context `{SqlDialect}.

(** *** WHERE *)

Definition clause_holds (c : Card) (k : string) (cl : Clause) : bool :=
  match get_field k c, cl with
  | Some d, OpAnd_OpEq v => sql_eq d v
  | None, _ => false
  end.

(** Every key of the where-object names a column. *)
Definition where_columns_exist (wh : gmap string Clause) : bool :=
  bool_decide (map_Forall (fun k _ => is_Some (attribute k)) wh).

(** The keys of a where-object are combined with AND. *)
Definition where_holds (wh : gmap string Clause) (c : Card) : bool :=
  bool_decide (map_Forall (fun k cl => clause_holds c k cl = true) wh).

(** The rows a where-object keeps, in the order of the table; without a
    where-object, all of them.  An unknown column is an error of the
    database. *)
Definition select (wh : option (gmap string Clause)) (cs : list Card) : Result (list Card) :=
  match wh with
  | None => Ok cs
  | Some m =>
      if where_columns_exist m then Ok (List.filter (where_holds m) cs)
      else Throw DatabaseError
  end.

(** *** Eager loading *)

Definition owner (us : list User) (c : Card) : option User :=
  match userId c with
  | DInt k => List.find (fun u => user_userId u =? k) us
  | _ => None
  end.

Definition hydrate (include : list Association) (us : list User) (c : Card) : Instance :=
  {| dataValues := c;
     userCard_of := if bool_decide (userCard ∈ include) then Included (owner us c)
                    else NotIncluded |}.

(** *** GROUP BY and ORDER BY *)

(** The order of the store on column values (binary collation): NULL below
    every number, numbers below every string, strings byte by byte. *)
Definition db_leb (a b : DbVal) : bool :=
  match a, b with
  | DNull, _ => true
  | DInt _, DNull => false
  | DInt x, DInt y => x <=? y
  | DInt _, DStr _ => true
  | DStr s, DStr t => String.leb s t
  | DStr _, _ => false
  end.

Definition db_le (a b : DbVal) : Prop := Is_true (db_leb a b).
Definition db_ge (a b : DbVal) : Prop := db_le b a.

#[global] Instance db_le_dec a b : Decision (db_le a b).
Proof. unfold db_le. apply _. Defined.

#[global] Instance db_ge_dec a b : Decision (db_ge a b).
Proof. unfold db_ge. apply _. Defined.

(** [count(col)] over the rows of one group: the rows whose [col] is not NULL. *)
Definition count_in_group (key : Card -> DbVal) (counted : Card -> DbVal) (s : DbVal)
    (cs : list Card) : Z :=
  Z.of_nat (length (List.filter
    (fun c => bool_decide (key c = s) && negb (bool_decide (counted c = DNull))) cs)).

(** One row per distinct value of the grouping column, in the requested
    order of that value. *)
Definition group_rows (key counted : Card -> DbVal) (desc : bool) (cs : list Card)
    : list CountRow :=
  let keys := remove_dups (key <$> cs) in
  let ordered := if desc then merge_sort db_ge keys else merge_sort db_le keys in
  (fun s => {| row_status := s; countCards := count_in_group key counted s cs |}) <$> ordered.

(** *** Model.findAll *)

Definition Card_findAll (options : Query) : M (list Instance) :=
  emit (EvFindAll options) ;;;
  w <~ get_world ;;
  rows <~ lift_result (select (q_where options) (cards w)) ;;
  ret (hydrate (q_include options) (users w) <$> rows).

(** [findAll] with [attributes], [group] and [order]: the grouped count. *)
Definition Card_findAll_grouped (options : GroupQuery) : M (list CountRow) :=
  emit (EvFindAllGrouped options) ;;;
  w <~ get_world ;;
  rows <~ lift_result (select (g_where options) (cards w)) ;;
  if bool_decide (is_Some (attribute (g_group options)))
     && bool_decide (is_Some (attribute (g_count_col options)))
  then ret (group_rows (fun c => default DNull (get_field (g_group options) c))
                       (fun c => default DNull (get_field (g_count_col options) c))
                       (g_order_desc options) rows)
  else throw DatabaseError.

(** *** Model.findByPk(param, options): [null] at once for a null key. *)
Definition Card_findByPk (param : JsVal) (include : list Association) : M (option Instance) :=
  match param with
  | JUndefined | JNull => ret None
  | _ =>
      emit (EvFindByPk param include) ;;;
      w <~ get_world ;;
      ret (hydrate include (users w)
             <$> List.find (fun c => sql_eq (DInt (cardId c)) param) (cards w))
  end.

(** *** Model.findOne(options): the first row of [findAll]; it has this one
    parameter. *)
Definition Card_findOne (options : Query) : M (option Instance) :=
  emit (EvFindOne options) ;;;
  w <~ get_world ;;
  rows <~ lift_result (select (q_where options) (cards w)) ;;
  ret (hydrate (q_include options) (users w) <$> head rows).

(** *** Model.create *)

Definition cast (t : DataType) (v : JsVal) : M DbVal :=
  match sql_cast t v with
  | Some d => ret d
  | None => throw ValidationError
  end.

(** The primary key of the new row: the counter's value when none is given
    (or when what is given is no value for the database), the given integer
    otherwise. *)
Definition new_primary_key (v : JsVal) (w : World) : Result Z :=
  match v with
  | JUndefined | JNull => Ok (next_id w)
  | _ => match sql_cast INTEGER v with
         | Some (DInt k) => Ok k
         | Some DNull => Ok (next_id w)
         | _ => Throw ValidationError
         end
  end.

(** The table with one more row, at the place its key gives it: before the
    first row with a larger key. *)
Fixpoint insert_row (row : Card) (cs : list Card) : list Card :=
  match cs with
  | [] => [row]
  | c :: rest =>
      if cardId row <? cardId c then row :: c :: rest else c :: insert_row row rest
  end.

(** [Card.create(values, options)].  The record handed back is written with
    the values as the row holds them. *)
Definition Card_create (values : CardValues) (options : Options) : M Instance :=
  emit (EvCreate values) ;;;
  connection_of options ;;;
  w <~ get_world ;;
  pk <~ lift_result (new_primary_key (v_cardId values) w) ;;
  uid <~ cast INTEGER (v_userId values) ;;
  ttl <~ cast STRING (v_title values) ;;
  cnt <~ cast STRING (v_content values) ;;
  sts <~ cast STRING (v_status values) ;;
  cre <~ cast STRING (v_createdAt values) ;;
  upd <~ cast STRING (v_updatedAt values) ;;
  if existsb (fun c => cardId c =? pk) (cards w) then throw UniqueConstraintError
  else
    let row := {| cardId := pk; userId := uid; title := ttl; content := cnt;
                  status := sts; createdAt := cre; updatedAt := upd |} in
    modify (fun w => set_counter (Z.max (next_id w) (pk + 1)) (pk :: issued w)
                       (set_cards (insert_row row (cards w)) w)) ;;;
    ret {| dataValues := row; userCard_of := NotIncluded |}.

(** *** instance.update, instance.destroy, Model.destroy *)

(** [instance.update(values, options)] leaves out the values that are
    [undefined]: their columns keep what they hold. *)
Definition cast_or_keep (t : DataType) (v : JsVal) (kept : DbVal) : M DbVal :=
  match v with
  | JUndefined => ret kept
  | _ => cast t v
  end.

Definition instance_update (inst : Instance) (ch : CardChanges) (options : Options)
    : M Instance :=
  let old := dataValues inst in
  emit (EvUpdate (cardId old) ch) ;;;
  connection_of options ;;;
  uid <~ cast_or_keep INTEGER (ch_userId ch) (userId old) ;;
  ttl <~ cast_or_keep STRING (ch_title ch) (title old) ;;
  cnt <~ cast_or_keep STRING (ch_content ch) (content old) ;;
  sts <~ cast_or_keep STRING (ch_status ch) (status old) ;;
  upd <~ cast_or_keep STRING (ch_updatedAt ch) (updatedAt old) ;;
  let row := {| cardId := cardId old; userId := uid; title := ttl; content := cnt;
                status := sts; createdAt := createdAt old; updatedAt := upd |} in
  modify (fun w => set_cards
            ((fun c => if cardId c =? cardId old then row else c) <$> cards w) w) ;;;
  ret {| dataValues := row; userCard_of := userCard_of inst |}.

Definition instance_destroy (inst : Instance) (options : Options) : M unit :=
  let pk := cardId (dataValues inst) in
  emit (EvDestroy pk) ;;;
  connection_of options ;;;
  modify (fun w => set_cards (List.filter (fun c => negb (cardId c =? pk)) (cards w)) w).

(** [Card.destroy({ where: {}, truncate: false, transaction })], given as
    the object that holds [transaction]. *)
Definition Card_destroy_all (options : Options) : M unit :=
  emit EvDestroyAll ;;;
  connection_of options ;;;
  modify (set_cards []).

End Orm.

(** *** Opening and closing a transaction *)

Definition sequelize_transaction : M Transaction :=
  emit EvTransaction ;;;
  modify (fun w => set_snapshot (Some (cards w)) w) ;;;
  ret TransactionHandle.

Definition commit (t : Transaction) : M unit :=
  emit EvCommit ;;;
  modify (set_snapshot None).

Definition rollback (t : Transaction) : M unit :=
  emit EvRollback ;;;
  modify (fun w => match snapshot w with
                   | Some cs => set_snapshot None (set_cards cs w)
                   | None => w
                   end).

(** *** [new Date()] *)

Definition new_Date : M Z :=
  fun w => (Ok (clock w),
            match ticks w with
            | [] => w
            | d :: ds => set_clock (clock w + d) ds w
            end).

End Orm.
Export Orm.

(** ** server/persistence/cardPersistence.js *)

Module CardPersistence.
Section CardPersistence.
Context `{SqlDialect}.

(** [{}] *)
Definition empty_query : Query :=
  {| q_subQuery := None; q_distinct := None; q_duplicating := None;
     q_include := []; q_where := None |}.

Definition set_subQuery (b : bool) (q : Query) : Query :=
  {| q_subQuery := Some b; q_distinct := q_distinct q; q_duplicating := q_duplicating q;
     q_include := q_include q; q_where := q_where q |}.

Definition set_distinct (b : bool) (q : Query) : Query :=
  {| q_subQuery := q_subQuery q; q_distinct := Some b; q_duplicating := q_duplicating q;
     q_include := q_include q; q_where := q_where q |}.

Definition set_duplicating (b : bool) (q : Query) : Query :=
  {| q_subQuery := q_subQuery q; q_distinct := q_distinct q; q_duplicating := Some b;
     q_include := q_include q; q_where := q_where q |}.

Definition set_include (i : list Association) (q : Query) : Query :=
  {| q_subQuery := q_subQuery q; q_distinct := q_distinct q; q_duplicating := q_duplicating q;
     q_include := i; q_where := q_where q |}.

(** [{...where, [k]: { [Op.and]: { [Op.eq]: v } }}]: spreading [undefined]
    adds nothing; a key that is already there takes the new clause. *)
Definition spread_with (wh : option (gmap string Clause)) (k : string) (v : JsVal)
    : gmap string Clause :=
  <[k := OpAnd_OpEq v]> (default ∅ wh).

(** [query.where = {...query.where, [k]: {...}}] *)
Definition add_where (k : string) (v : JsVal) (q : Query) : Query :=
  {| q_subQuery := q_subQuery q; q_distinct := q_distinct q; q_duplicating := q_duplicating q;
     q_include := q_include q; q_where := Some (spread_with (q_where q) k v) |}.

Definition add_group_where (k : string) (v : JsVal) (q : GroupQuery) : GroupQuery :=
  {| g_group := g_group q; g_count_col := g_count_col q; g_order_desc := g_order_desc q;
     g_where := Some (spread_with (g_where q) k v) |}.

Definition createCard (card : CardValues) (transaction : Options) : M Instance :=
  newCard <~ Card_create card transaction ;;
  ret newCard.

(** The options object [searchCards] hands to [findAll]. *)
Definition searchCards_query (userId status : JsVal) : Query :=
  let query := empty_query in
  let query := set_subQuery false query in
  let query := set_distinct true query in
  let query := set_duplicating false query in
  let query := set_include [userCard] query in
  let query := if truthy userId then add_where "userId" userId query else query in
  let query := if truthy status && strict_neq status (JStr "Todos")
               then add_where "status" status query else query in
  query.

Definition searchCards (userId status : JsVal) : M (list Instance) :=
  cardsCollection <~ Card_findAll (searchCards_query userId status) ;;
  ret cardsCollection.

Definition findCardById (cardId : JsVal) : M (option Instance) :=
  cardCollection <~ Card_findByPk cardId [userCard] ;;
  match cardCollection with
  | Some found => ret (Some found)
  | None => ret None
  end.

(** An element of [parameters]. *)
Record FieldValue := {
  field : string;
  value : JsVal
}.

(** The options object [findCardByParameters] builds: it starts from
    [{ where: {} }] and takes the parameters in order. *)
Definition findCardByParameters_query (parameters : list FieldValue) : Query :=
  let query := {| q_subQuery := None; q_distinct := None; q_duplicating := None;
                  q_include := []; q_where := Some ∅ |} in
  fold_left (fun query parameter => add_where (field parameter) (value parameter) query)
            parameters query.

(** [Card.findOne(query, { include: [userCard] })] *)
Definition findCardByParameters (parameters : list FieldValue) : M (option Instance) :=
  let query := findCardByParameters_query parameters in
  cardCollection <~ call_with_extra_argument Card_findOne query [userCard] ;;
  match cardCollection with
  | Some found => ret (Some found)
  | None => ret None
  end.

Definition updateCard (cardId : JsVal) (card : CardChanges) (transaction : Options)
    : M (option Instance) :=
  cardCollection <~ Card_findByPk cardId [userCard] ;;
  match cardCollection with
  | Some found =>
      updated <~ instance_update found card transaction ;;
      ret (Some updated)
  | None => ret None
  end.

(** [Card.findByPk(cardId)]: no association is included here. *)
Definition deleteCard (cardId : JsVal) (transaction : Options) : M (option Instance) :=
  cardCollection <~ Card_findByPk cardId [] ;;
  match cardCollection with
  | Some found =>
      instance_destroy found transaction ;;;
      ret (Some found)
  | None => ret None
  end.

(** [Card.destroy({ where: {}, truncate: false, transaction })]: what the
    caller gave becomes the [transaction] property of a new object. *)
Definition deleteAllCards (transaction : Options) : M unit :=
  Card_destroy_all (options_around transaction).

(** The options object [countCardsByStatus] hands to [findAll]. *)
Definition countCardsByStatus_query (userId : JsVal) : GroupQuery :=
  let query := {| g_group := "status"; g_count_col := "cardId"; g_order_desc := true;
                  g_where := None |} in
  let query := if truthy userId then add_group_where "userId" userId query else query in
  query.

Definition countCardsByStatus (userId : JsVal) : M (list CountRow) :=
  countCards <~ Card_findAll_grouped (countCardsByStatus_query userId) ;;
  ret countCards.

End CardPersistence.
End CardPersistence.

(** ** server/helpers/api_helpers.js *)

Module Helpers.
Section Helpers.
Context `{DateHelpers}.

(** [res.status(s).send(b)] *)
Definition res_status_send (s : Z) (b : Body) : M unit := emit (EvSend s b).

(** [res.send(b)]: the status is Express's default. *)
Definition res_send (b : Body) : M unit := emit (EvSend 200 b).

(** Modelled from the spec: [sendErrorMessage] of
    server/helpers/api_helpers.js, "a shared error-response formatter that
    logs a category/action/severity and sends a client-facing
    status+message+timestamp payload", the payload being
    [{code, type, message, date}] with [date] a formatted timestamp. *)
Definition sendErrorMessage (error : option Error) (category action : string)
    (code : Z) (type message : string) : M unit :=
  emit (EvLog category action type) ;;;
  now <~ new_Date ;;
  res_status_send code
    (BError {| Store.code := code; Store.type := type; Store.message := message;
               date := formatDatetime now |}).

End Helpers.
End Helpers.
Export Helpers.

(** ** server/controllers/cardController.js *)

Module CardController.

(** What a handler reads of [req]. *)
Record Request := {
  body : gmap string JsVal;
  query : gmap string JsVal;
  params : gmap string JsVal
}.

Section CardController.
Context `{SqlDialect} `{DateHelpers}.

(** [let transaction; try { transaction = await sequelize.transaction(); ... }
     catch (error) { ... }]: the handler sees the transaction only when it
    was opened. *)
Definition try_with_transaction (block : Transaction -> M unit)
    (handler : option Transaction -> Error -> M unit) : M unit :=
  fun w => match sequelize_transaction w with
           | (Ok transaction, w') => try_catch (block transaction) (handler (Some transaction)) w'
           | (Throw error, w') => handler None error w'
           end.

(** [if (transaction) { await transaction.rollback(); }] *)
Definition rollback_if_open (transaction : option Transaction) : M unit :=
  match transaction with
  | Some t => rollback t
  | None => ret tt
  end.

Definition createCard (req : Request) : M unit :=
  try_with_transaction
    (fun transaction =>
       created <~ new_Date ;;
       updated <~ new_Date ;;
       newCard <~ CardPersistence.createCard
                    {| v_cardId := prop (body req) "cardId";
                       v_userId := prop (body req) "userId";
                       v_title := prop (body req) "title";
                       v_content := prop (body req) "content";
                       v_status := prop (body req) "status";
                       v_createdAt := JStr (formatDatabaseDatetime created);
                       v_updatedAt := JStr (formatDatabaseDatetime updated) |}
                    (options_with transaction) ;;
       commit transaction ;;;
       res_status_send 201 (BInstance newCard))
    (fun transaction error =>
       rollback_if_open transaction ;;;
       sendErrorMessage (Some error) "CARDS" "CADASTRO DE CARD" 500 "error"
         "Falha ao gerar o cadastro do card, tente novamente mais tarde").

Definition searchCards (req : Request) : M unit :=
  try_catch
    (let userId := prop (query req) "userId" in
     toDoCardsCollection <~ CardPersistence.searchCards userId (JStr "TO-DO") ;;
     doingCardsCollection <~ CardPersistence.searchCards userId (JStr "DOING") ;;
     doneCardsCollection <~ CardPersistence.searchCards userId (JStr "DONE") ;;
     let cardsCollection :=
       BBuckets toDoCardsCollection doingCardsCollection doneCardsCollection in
     res_status_send 200 cardsCollection)
    (fun error =>
       sendErrorMessage (Some error) "CARDS" "PESQUISA DE CARDS" 500 "error"
         "Falha ao pesquisar cards, tente novamente mais tarde").

Definition findCardById (req : Request) : M unit :=
  try_catch
    (cardCollection <~ CardPersistence.findCardById (prop (params req) "id") ;;
     match cardCollection with
     | Some found => res_status_send 200 (BInstance found)
     | None =>
         sendErrorMessage None "CARDS" "PESQUISA DE CARD POR ID" 500 "error"
           "Card não encontrado"
     end)
    (fun error =>
       sendErrorMessage (Some error) "CARDS" "PESQUISA DE CARD POR ID" 500 "error"
         "Falha ao pesquisar o card, tente novamente mais tarde").

Definition updateCard (req : Request) : M unit :=
  try_with_transaction
    (fun transaction =>
       let id := prop (params req) "id" in
       updated <~ new_Date ;;
       cardCollection <~ CardPersistence.updateCard id
                           {| ch_userId := prop (body req) "userId";
                              ch_title := prop (body req) "title";
                              ch_content := prop (body req) "content";
                              ch_status := prop (body req) "status";
                              ch_updatedAt := JStr (formatDatabaseDatetime updated) |}
                           (options_with transaction) ;;
       match cardCollection with
       | Some found => res_status_send 200 (BInstance found)
       | None =>
           sendErrorMessage None "CARDS" "ALTERAÇÃO DE CARD" 404 "warning"
             "Card não encontrado"
       end ;;;
       commit transaction)
    (fun transaction error =>
       rollback_if_open transaction ;;;
       sendErrorMessage (Some error) "CARDS" "ALTERAÇÃO DE CARD" 500 "error"
         "Falha ao alterar o cadastro do card, tente novamente mais tarde").

Definition deleteCard (req : Request) : M unit :=
  try_with_transaction
    (fun transaction =>
       let id := prop (params req) "id" in
       cardCollection <~ CardPersistence.deleteCard id (options_with transaction) ;;
       match cardCollection with
       | Some found => res_status_send 200 (BInstance found)
       | None =>
           sendErrorMessage None "CARDS" "DELEÇÃO DE CARD" 404 "warning"
             "Card não encontrado"
       end ;;;
       commit transaction)
    (fun transaction error =>
       rollback_if_open transaction ;;;
       sendErrorMessage (Some error) "CARDS" "DELEÇÃO DE CARD" 500 "error"
         "Falha ao deletar o cadastro do card, tente novamente mais tarde").

Definition deleteAllCards (req : Request) : M unit :=
  try_with_transaction
    (fun transaction =>
       CardPersistence.deleteAllCards (options_with transaction) ;;;
       commit transaction ;;;
       res_status_send 200 (BText "Todos os cards foram deletados"))
    (fun transaction error =>
       rollback_if_open transaction ;;;
       sendErrorMessage (Some error) "CARDS" "DELEÇÃO DE CARDS" 500 "error"
         "Falha ao deletar o cadastro de todos cards, tente novamente mais tarde").

(** [for (let i = 0; i < countCards.length; i++) { sumCards += ...;
     cardsTotal[i] = ...; }], entered at index [i] with the rows from [i] on. *)
Fixpoint count_loop (countCards : list CountRow) (i : nat) (cardsTotal : list Z)
    (sumCards : Z) : list Z * Z :=
  match countCards with
  | [] => (cardsTotal, sumCards)
  | row :: rest =>
      let sumCards := sumCards + Store.countCards row in
      let cardsTotal := array_set i (Store.countCards row) cardsTotal in
      count_loop rest (S i) cardsTotal sumCards
  end.

(** The array [countCards] sends for the rows of the grouped count. *)
Definition cardsTotal_of (countCards : list CountRow) : list Z :=
  let cardsTotal := [0; 0; 0; 0] in
  let sumCards := 0 in
  let '(cardsTotal, sumCards) := count_loop countCards 0 cardsTotal sumCards in
  array_set 3 sumCards cardsTotal.

Definition countCards (req : Request) : M unit :=
  try_catch
    (let userId := prop (query req) "userId" in
     countCards <~ CardPersistence.countCardsByStatus userId ;;
     res_send (BCounts (cardsTotal_of countCards)))
    (fun error =>
       sendErrorMessage (Some error) "CARDS" "CONTAGEM DE CARDS" 500 "error"
         "Falha ao obter os indicadores de cards, tente novamente mais tarde").

End CardController.
End CardController.

(** ** server/routes/index.js *)

Module Router.

Inductive Method := GET | POST | PUT | DELETE | HEAD | OPTIONS | PATCH.

#[global] Instance Method_eq_dec : EqDecision Method.
Proof. solve_decision. Defined.

Inductive Middleware := verifyJWTToken.

#[global] Instance Middleware_eq_dec : EqDecision Middleware.
Proof. solve_decision. Defined.

Inductive Handler :=
| CardController_createCard
| CardController_updateCard
| CardController_deleteCard
| CardController_searchCards
| CardController_findCardById
| CardController_countCards
| UserController_searchUsers
| UserController_findUserById
| UserController_countUsers
| UserController_createUser
| UserController_updateUser
| UserController_authenticateUser
| UserController_recoverUserPassword.

#[global] Instance Handler_eq_dec : EqDecision Handler.
Proof. solve_decision. Defined.

(** [router.METHOD(path, ...middlewares, handler)] *)
Record Route := {
  method : Method;
  path : string;
  middlewares : list Middleware;
  handler : Handler
}.

#[global] Instance Route_eq_dec : EqDecision Route.
Proof. solve_decision. Defined.

(** The route table, in the order of declaration. *)
Definition routes : list Route :=
  [ {| method := POST; path := "/cards/"; middlewares := [verifyJWTToken];
       handler := CardController_createCard |};
    {| method := PUT; path := "/cards/:id"; middlewares := [verifyJWTToken];
       handler := CardController_updateCard |};
    {| method := DELETE; path := "/cards/:id"; middlewares := [verifyJWTToken];
       handler := CardController_deleteCard |};
    {| method := GET; path := "/cards/"; middlewares := [verifyJWTToken];
       handler := CardController_searchCards |};
    {| method := GET; path := "/cards/:id"; middlewares := [verifyJWTToken];
       handler := CardController_findCardById |};
    {| method := GET; path := "/cards/tasks/count"; middlewares := [verifyJWTToken];
       handler := CardController_countCards |};
    {| method := GET; path := "/users/"; middlewares := [verifyJWTToken];
       handler := UserController_searchUsers |};
    {| method := GET; path := "/users/:id"; middlewares := [verifyJWTToken];
       handler := UserController_findUserById |};
    {| method := GET; path := "/users/tasks/count"; middlewares := [verifyJWTToken];
       handler := UserController_countUsers |};
    {| method := POST; path := "/users/"; middlewares := [];
       handler := UserController_createUser |};
    {| method := PUT; path := "/users/:id"; middlewares := [verifyJWTToken];
       handler := UserController_updateUser |};
    {| method := POST; path := "/users/login"; middlewares := [];
       handler := UserController_authenticateUser |};
    {| method := POST; path := "/users/recovery"; middlewares := [];
       handler := UserController_recoverUserPassword |} ].

(** The route asks for a verified token before its handler runs. *)
Definition requires_token (r : Route) : bool :=
  bool_decide (verifyJWTToken ∈ middlewares r).

(** *** Matching a request against a route (Express, default options:
    letter case is ignored and one trailing slash is optional) *)

Fixpoint split_slash (s : string) : list string :=
  match s with
  | EmptyString => [""]
  | String c rest =>
      if Ascii.eqb c "/"%char then "" :: split_slash rest
      else match split_slash rest with
           | [] => [String c ""]
           | seg :: segs => String c seg :: segs
           end
  end.

(** The segments after the leading slash, without the empty one a trailing
    slash leaves; [None] when the path does not begin with a slash. *)
Definition segments (s : string) : option (list string) :=
  match split_slash s with
  | "" :: segs =>
      Some (match reverse segs with
            | "" :: front => reverse front
            | _ => segs
            end)
  | _ => None
  end.

Definition lower (c : ascii) : ascii :=
  let n := nat_of_ascii c in
  if ((65 <=? n) && (n <=? 90))%nat then ascii_of_nat (n + 32)%nat else c.

Fixpoint lowercase (s : string) : string :=
  match s with
  | EmptyString => EmptyString
  | String c rest => String (lower c) (lowercase rest)
  end.

(** A segment of a pattern is a parameter ([:name], any non-empty text) or
    literal text. *)
Definition segment_matches (pattern seg : string) : bool :=
  match pattern with
  | String ":"%char _ => negb (String.eqb seg "")
  | _ => negb (String.eqb seg "") && String.eqb (lowercase pattern) (lowercase seg)
  end.

Fixpoint segments_match (patterns segs : list string) : bool :=
  match patterns, segs with
  | [], [] => true
  | p :: ps, s :: ss => segment_matches p s && segments_match ps ss
  | _, _ => false
  end.

Definition path_matches (pattern url : string) : bool :=
  match segments pattern, segments url with
  | Some ps, Some ss => segments_match ps ss
  | _, _ => false
  end.

(** *** [decodeURIComponent], which Express applies to what a parameter
    captured *)

Definition hex_value (c : ascii) : option nat :=
  let n := nat_of_ascii c in
  if ((48 <=? n) && (n <=? 57))%nat then Some (n - 48)%nat
  else if ((65 <=? n) && (n <=? 70))%nat then Some (n - 55)%nat
  else if ((97 <=? n) && (n <=? 102))%nat then Some (n - 87)%nat
  else None.

Inductive UriToken :=
| Literal (c : ascii)
| Escaped (octet : nat).

(** A percent sign is followed by two hexadecimal digits, or the text is
    malformed. *)
Fixpoint uri_tokens (s : string) : option (list UriToken) :=
  match s with
  | EmptyString => Some []
  | String "%"%char (String a (String b rest)) =>
      match hex_value a, hex_value b, uri_tokens rest with
      | Some h, Some l, Some ts => Some (Escaped (16 * h + l)%nat :: ts)
      | _, _, _ => None
      end
  | String "%"%char _ => None
  | String c rest => cons (Literal c) <$> uri_tokens rest
  end.

Definition between (lo hi b : nat) : bool := ((lo <=? b) && (b <=? hi))%nat.

(** The second octet of a sequence of three and of four: no overlong form,
    no surrogate, nothing above U+10FFFF. *)
Definition second_of_three (b b1 : nat) : bool :=
  if (b =? 224)%nat then between 160 191 b1
  else if (b =? 237)%nat then between 128 159 b1
  else between 128 191 b1.

Definition second_of_four (b b1 : nat) : bool :=
  if (b =? 240)%nat then between 144 191 b1
  else if (b =? 244)%nat then between 128 143 b1
  else between 128 191 b1.

(** The escaped octets must be UTF-8: an octet below 128 alone, a leading
    octet with its continuation octets, all of them escaped.  The text comes
    back as its UTF-8 octets. *)
Fixpoint utf8_text (ts : list UriToken) : option (list ascii) :=
  match ts with
  | [] => Some []
  | Literal c :: rest => cons c <$> utf8_text rest
  | Escaped b :: rest =>
      if (b <? 128)%nat then cons (ascii_of_nat b) <$> utf8_text rest
      else if between 194 223 b then
        match rest with
        | Escaped b1 :: rest =>
            if between 128 191 b1
            then app [ascii_of_nat b; ascii_of_nat b1] <$> utf8_text rest
            else None
        | _ => None
        end
      else if between 224 239 b then
        match rest with
        | Escaped b1 :: Escaped b2 :: rest =>
            if second_of_three b b1 && between 128 191 b2
            then app [ascii_of_nat b; ascii_of_nat b1; ascii_of_nat b2] <$> utf8_text rest
            else None
        | _ => None
        end
      else if between 240 244 b then
        match rest with
        | Escaped b1 :: Escaped b2 :: Escaped b3 :: rest =>
            if second_of_four b b1 && between 128 191 b2 && between 128 191 b3
            then app [ascii_of_nat b; ascii_of_nat b1; ascii_of_nat b2; ascii_of_nat b3]
                   <$> utf8_text rest
            else None
        | _ => None
        end
      else None
  end.

(** [decodeURIComponent(s)]; [None] when it throws a [URIError]. *)
Definition decodeURIComponent (s : string) : option string :=
  ts ← uri_tokens s;
  String.string_of_list_ascii <$> utf8_text ts.

(** The parameters a layer captures from a path that matched it, each
    decoded; [None] when one of them cannot be decoded. *)
Fixpoint layer_params (patterns segs : list string) : option (list (string * string)) :=
  match patterns, segs with
  | String ":"%char name :: ps, s :: ss =>
      v ← decodeURIComponent s;
      rest ← layer_params ps ss;
      Some ((name, v) :: rest)
  | _ :: ps, _ :: ss => layer_params ps ss
  | _, _ => Some []
  end.

(** What [layer.match(path)] gives: no match, a match with its parameters,
    or the error of a parameter that cannot be decoded. *)
Inductive LayerMatch :=
| NoMatch
| Matches (params : list (string * string))
| FailsToDecode.

Definition layer_match (pattern url : string) : LayerMatch :=
  if path_matches pattern url then
    match layer_params (default [] (segments pattern)) (default [] (segments url)) with
    | Some params => Matches params
    | None => FailsToDecode
    end
  else NoMatch.

(** A [GET] route also answers [HEAD]. *)
Definition handles_method (r : Route) (m : Method) : bool :=
  bool_decide (method r = m) || (bool_decide (m = HEAD) && bool_decide (method r = GET)).

(** Where a request ends in the stack of the router. *)
Inductive Dispatch :=
| Reached (r : Route)   (* the middlewares and the handler of [r] take it *)
| Unmatched             (* no route took it: the function of [router.use] runs *)
| NotDecoded.           (* a layer could not decode its parameter *)

(** The router walks its stack in the order of declaration.  A layer whose
    path matches is asked for its parameters before the method is looked
    at; once a layer has failed to decode one, the error is pending: no
    later route matches, and the function registered with [router.use],
    which has three parameters and so is no error handler, is skipped. *)
Fixpoint dispatch (m : Method) (url : string) (stack : list Route) : Dispatch :=
  match stack with
  | [] => Unmatched
  | r :: rest =>
      match layer_match (path r) url with
      | NoMatch => dispatch m url rest
      | FailsToDecode => NotDecoded
      | Matches _ => if handles_method r m then Reached r else dispatch m url rest
      end
  end.

(** [req.route]: the route that took the request, if any. *)
Definition req_route (m : Method) (url : string) : option Route :=
  match dispatch m url routes with
  | Reached r => Some r
  | _ => None
  end.

(** Every parameter that a layer captures from this path can be decoded. *)
Definition parameters_decode (url : string) : bool :=
  forallb (fun r => match layer_match (path r) url with
                    | FailsToDecode => false
                    | _ => true
                    end) routes.

Section Router.
Context `{DateHelpers}.

(** [router.use(function(req, res, next) {...})]: [true] when it calls
    [next()]. *)
Definition fallback (route : option Route) : M bool :=
  match route with
  | None =>
      now <~ new_Date ;;
      res_status_send 404
        (BError {| code := 404; type := "error"; message := "Rota não encontrada";
                   date := formatDatetime now |}) ;;;
      ret false
  | Some _ => ret true
  end.

(** What the router does with a request: a route takes it (its middlewares
    and handler answer); or no route does and the function registered with
    [router.use] runs; or the error of the parameter leaves the router, to
    be answered by the application (Express: status 400). *)
Definition router_handle (m : Method) (url : string) : M (option Route) :=
  match dispatch m url routes with
  | Reached r => ret (Some r)
  | Unmatched => fallback None ;;; ret None
  | NotDecoded => throw URIError
  end.

End Router.
End Router.

(** ** What a request is seen to do *)

Module Observe.

(** The world a handler leaves. *)
Definition run {A} (h : M A) (w : World) : World := snd (h w).

(** The events a handler added to the trace. *)
Definition emitted {A} (h : M A) (w : World) : list Event :=
  drop (length (trace w)) (trace (run h w)).

Definition sends (es : list Event) : list (Z * Body) :=
  omap (fun e => match e with EvSend s b => Some (s, b) | _ => None end) es.

(** The responses a handler sent: status and body. *)
Definition responses {A} (h : M A) (w : World) : list (Z * Body) :=
  sends (emitted h w).

(** The [n]-th reading of the clock from [w] on, counting from 0. *)
Fixpoint reading (n : nat) (w : World) : Z :=
  match n with
  | O => clock w
  | S n => reading n (run new_Date w)
  end.

(** The counter is positive and ahead of every key ever stored, and the rows
    of the table carry stored keys, each once. *)
Definition store_ok (w : World) : Prop :=
  0 < next_id w
  /\ Forall (fun k => k < next_id w) (issued w)
  /\ Forall (fun c => cardId c ∈ issued w) (cards w)
  /\ NoDup (cardId <$> cards w).

#[global] Instance store_ok_dec (w : World) : Decision (store_ok w).
Proof. unfold store_ok. apply _. Defined.

(** The rows of a saved table carry stored keys, each once. *)
Definition rows_ok (keys : list Z) (cs : list Card) : Prop :=
  Forall (fun c => cardId c ∈ keys) cs /\ NoDup (cardId <$> cs).

(** A well-formed store whose open transaction, if any, saved a table that
    can be put back. *)
Definition consistent (w : World) : Prop :=
  store_ok w
  /\ match snapshot w with
     | Some saved => rows_ok (issued w) saved
     | None => True
     end.

(** A computation that keeps the store consistent, whether it returns or
    throws. *)
Definition preserves {A} (m : M A) : Prop :=
  forall w, consistent w -> consistent (run m w).

(** The last slot is the sum of the three before it. *)
Definition count_invariant (cardsTotal : list Z) : Prop :=
  nth 3 cardsTotal 0 = nth 0 cardsTotal 0 + nth 1 cardsTotal 0 + nth 2 cardsTotal 0.

(** The created record as the specification has it: a positive key that was
    never used before, and equal time stamps. *)
Definition fresh_record (w : World) (r : Instance) : Prop :=
  0 < cardId (dataValues r)
  /\ (cardId (dataValues r) ∉ issued w)
  /\ createdAt (dataValues r) = updatedAt (dataValues r).

(** The events of a lookup by primary key (none for a null key). *)
Definition lookup_events (id : JsVal) (include : list Association) : list Event :=
  match id with
  | JUndefined | JNull => []
  | _ => [EvFindByPk id include]
  end.

(** The events of the transaction among some events. *)
Definition transaction_events (es : list Event) : list Event :=
  List.filter (fun e => match e with
                        | EvTransaction | EvCommit | EvRollback => true
                        | _ => false
                        end) es.

(** The events that write to the table among some events. *)
Definition write_events (es : list Event) : list Event :=
  List.filter (fun e => match e with
                        | EvCreate _ | EvUpdate _ _ | EvDestroy _ | EvDestroyAll => true
                        | _ => false
                        end) es.

(** A handler opened one transaction and either committed it, not answering
    500, or rolled it back, answering 500 and leaving the table as it was. *)
Definition committed_or_undone {A} (h : M A) (w : World) : Prop :=
  let es := emitted h w in
  let sent := fst <$> responses h w in
  (transaction_events es = [EvTransaction; EvCommit] /\ (500 ∉ sent))
  \/ (transaction_events es = [EvTransaction; EvRollback]
      /\ sent = [500] /\ cards (run h w) = cards w).

(** The table with the rows of key [k] replaced by [row]. *)
Definition replace_row (k : Z) (row : Card) (cs : list Card) : list Card :=
  (fun c => if cardId c =? k then row else c) <$> cs.

(** The table without the rows of key [k]. *)
Definition without_key (k : Z) (cs : list Card) : list Card :=
  List.filter (fun c => negb (cardId c =? k)) cs.

(** What a handler that writes leaves behind: the events it added, the
    table, and everything else as it was, with no transaction open. *)
Definition leaves (after w : World) (es : list Event) (cs : list Card) : Prop :=
  trace after = trace w ++ es
  /\ cards after = cs
  /\ users after = users w
  /\ next_id after = next_id w
  /\ issued after = issued w
  /\ snapshot after = None.

(** What a handler that only reads leaves behind: the events it added, and
    the store as it was. *)
Definition only_adds (after w : World) (es : list Event) : Prop :=
  trace after = trace w ++ es
  /\ cards after = cards w
  /\ users after = users w
  /\ next_id after = next_id w
  /\ issued after = issued w
  /\ snapshot after = snapshot w.

(** The value of the last pair that names the field [k], if any. *)
Definition last_value (k : string) (ps : list CardPersistence.FieldValue) : option JsVal :=
  CardPersistence.value
    <$> last (List.filter (fun p => bool_decide (CardPersistence.field p = k)) ps).

(** The where-object after the loop of [findCardByParameters]: each
    parameter in turn sets its key. *)
Definition parameters_where (ps : list CardPersistence.FieldValue) : gmap string Clause :=
  foldl (fun m p => <[CardPersistence.field p := OpAnd_OpEq (CardPersistence.value p)]> m)
        ∅ ps.

Section Observe.
Context `{SqlDialect}.

(** The cards a count for [userId] is about. *)
Definition counted_cards (userId : JsVal) (w : World) : list Card :=
  if truthy userId then List.filter (fun c => sql_eq (Store.userId c) userId) (cards w)
  else cards w.

(** The distinct status values of some cards. *)
Definition statuses (cs : list Card) : list DbVal := remove_dups (status <$> cs).

(** The number of cards with a given status. *)
Definition with_status (s : DbVal) (cs : list Card) : Z :=
  Z.of_nat (length (List.filter (fun c => bool_decide (status c = s)) cs)).

(** The rows an equality filter on [userId] and [status] keeps, each clause
    being there only under its condition. *)
Definition searchCards_keeps (userId status : JsVal) (c : Card) : bool :=
  (if truthy userId then sql_eq (Store.userId c) userId else true)
  && (if truthy status && strict_neq status (JStr "Todos")
      then sql_eq (Store.status c) status else true).

(** The grouped count as a report: one row per distinct status of the
    cards, in descending order of the status, with the number of cards that
    have it. *)
Definition grouped_count (cs : list Card) : list CountRow :=
  (fun s => {| row_status := s; countCards := with_status s cs |})
    <$> merge_sort db_ge (statuses cs).

(** The sum of the counts of some rows. *)
Definition total (rows : list CountRow) : Z :=
  foldr (fun r acc => countCards r + acc) 0 rows.

(** The cards of a bucket: those of the user, when one is given, with the
    bucket's status; each with its owner. *)
Definition bucket (userId : JsVal) (st : string) (w : World) : list Instance :=
  hydrate [userCard] (users w)
    <$> List.filter (fun c => (if truthy userId then sql_eq (Store.userId c) userId else true)
                              && sql_eq (status c) (JStr st)) (cards w).

(** The values the creation endpoint hands to the persistence layer: the
    fields of the body and the first two readings of the clock. *)
Definition createCard_values `{DateHelpers} (req : CardController.Request) (w : World)
    : CardValues :=
  {| v_cardId := prop (CardController.body req) "cardId";
     v_userId := prop (CardController.body req) "userId";
     v_title := prop (CardController.body req) "title";
     v_content := prop (CardController.body req) "content";
     v_status := prop (CardController.body req) "status";
     v_createdAt := JStr (formatDatabaseDatetime (reading 0 w));
     v_updatedAt := JStr (formatDatabaseDatetime (reading 1 w)) |}.

(** The request with one more query-string parameter. *)
Definition with_query (k : string) (v : JsVal) (req : CardController.Request)
    : CardController.Request :=
  {| CardController.body := CardController.body req;
     CardController.query := <[k := v]> (CardController.query req);
     CardController.params := CardController.params req |}.

(** The card a primary key finds. *)
Definition card_with_key (id : JsVal) (w : World) : option Card :=
  match id with
  | JUndefined | JNull => None
  | _ => List.find (fun c => sql_eq (DInt (cardId c)) id) (cards w)
  end.

(** Two keys that compare equal to one value are one key. *)
Definition keys_distinguished : Prop :=
  forall (a b : Z) (id : JsVal),
    sql_eq (DInt a) id = true -> sql_eq (DInt b) id = true -> a = b.

(** The row [instance.update] writes over [old], when the database takes
    every value it is given: a value that is [undefined] is not given, and
    the column keeps what it holds. *)
Definition changed_value (t : DataType) (v : JsVal) (kept : DbVal) : option DbVal :=
  match v with
  | JUndefined => Some kept
  | _ => sql_cast t v
  end.

Definition changed_row (ch : CardChanges) (old : Card) : option Card :=
  uid ← changed_value INTEGER (ch_userId ch) (userId old);
  ttl ← changed_value STRING (ch_title ch) (title old);
  cnt ← changed_value STRING (ch_content ch) (content old);
  sts ← changed_value STRING (ch_status ch) (status old);
  upd ← changed_value STRING (ch_updatedAt ch) (updatedAt old);
  Some {| cardId := cardId old; userId := uid; title := ttl; content := cnt;
          status := sts; createdAt := createdAt old; updatedAt := upd |}.

(** The columns a body can change, with their types. *)
Definition updatable : list (string * DataType) :=
  [("userId", INTEGER); ("title", STRING); ("content", STRING); ("status", STRING)].


(** The changes the update endpoint hands to the persistence layer: the
    fields of the body and the first reading of the clock. *)
Definition updateCard_changes `{DateHelpers} (req : CardController.Request) (w : World)
    : CardChanges :=
  {| ch_userId := prop (CardController.body req) "userId";
     ch_title := prop (CardController.body req) "title";
     ch_content := prop (CardController.body req) "content";
     ch_status := prop (CardController.body req) "status";
     ch_updatedAt := JStr (formatDatabaseDatetime (reading 0 w)) |}.

(** The payload of an error response. *)
Definition error_body `{DateHelpers} (code : Z) (type message : string) (t : Z) : Body :=
  BError {| Store.code := code; Store.type := type; Store.message := message;
            date := formatDatetime t |}.

(** A card satisfies every pair of a parameter list. *)
Definition satisfies_all (ps : list CardPersistence.FieldValue) (c : Card) : bool :=
  forallb (fun p => clause_holds c (CardPersistence.field p)
                      (OpAnd_OpEq (CardPersistence.value p))) ps.

End Observe.
End Observe.
Export Observe.

(** ** A dialect, date helpers and stores to run the code on *)

Module Sample.

Definition parse_int (s : string) : option Z :=
  if String.eqb s "" then None else Z.of_int <$> NilEmpty.int_of_string s.

(** Numbers and decimal strings are interchangeable and a boolean is stored
    as 1 or 0, as in MySQL and SQLite; an integer column rejects a string
    that is no decimal number, as MySQL does in strict mode. *)
Definition cast_value (t : DataType) (v : JsVal) : option DbVal :=
  match t, v with
  | _, JUndefined | _, JNull => Some DNull
  | INTEGER, JBool b => Some (DInt (if b then 1 else 0))
  | STRING, JBool b => Some (DStr (if b then "1" else "0"))
  | INTEGER, JNum n => Some (DInt n)
  | INTEGER, JStr s => DInt <$> parse_int s
  | STRING, JNum n => Some (DStr (pretty n))
  | STRING, JStr s => Some (DStr s)
  end.

Definition eq_value (d : DbVal) (v : JsVal) : bool :=
  match d with
  | DNull => false
  | DInt a => bool_decide (cast_value INTEGER v = Some (DInt a))
  | DStr s => bool_decide (cast_value STRING v = Some (DStr s))
  end.

#[export] Instance dialect : SqlDialect :=
  {| sql_eq := eq_value; sql_cast := cast_value |}.

(** Instants are shown in whole seconds. *)
#[export] Instance helpers : DateHelpers :=
  {| formatDatetime := fun t => pretty (t `div` 1000);
     formatDatabaseDatetime := fun t => pretty (t `div` 1000) |}.

Definition card (id : Z) (owner : Z) (st : string) : Card :=
  {| cardId := id; userId := DInt owner; title := DStr "t"; content := DStr "c";
     status := DStr st; createdAt := DStr "0"; updatedAt := DStr "0" |}.

Definition world (cs : list Card) (us : list User) (next : Z) (ts : list Z) : World :=
  {| cards := cs; users := us; next_id := next; issued := cardId <$> cs;
     clock := 1000; ticks := ts; snapshot := None; trace := [] |}.

Definition ana : User := {| user_userId := 7; user_fields := [("name", DStr "Ana")] |}.

(** Two cards to do and one done, all of user 7. *)
Definition board : World :=
  world [card 1 7 "TO-DO"; card 2 7 "TO-DO"; card 3 7 "DONE"] [ana] 4 [].

(** A store with a fourth and a fifth status. *)
Definition five_statuses : World :=
  world [card 1 7 "TO-DO"; card 2 7 "DOING"; card 3 7 "DONE"; card 4 7 "BLOCKED";
         card 5 7 "ARCHIVED"; card 6 7 "DONE"] [ana] 7 [].

Definition four_statuses : World :=
  world [card 1 7 "TO-DO"; card 2 7 "DOING"; card 3 7 "DONE"; card 4 7 "BLOCKED"] [ana] 5 [].

Definition request (b q p : list (string * JsVal)) : CardController.Request :=
  {| CardController.body := list_to_map b;
     CardController.query := list_to_map q;
     CardController.params := list_to_map p |}.

Definition only_done : World := world [card 1 7 "DONE"] [ana] 2 [].

(** An empty store whose clock moves five seconds between two readings. *)
Definition slow_clock : World := world [] [ana] 1 [5000].

(** A body without a key, and one that brings its own. *)
Definition unkeyed : CardController.Request :=
  request [("userId", JNum 7); ("title", JStr "x"); ("content", JStr "y");
           ("status", JStr "TO-DO")] [] [].

Definition keyed : CardController.Request :=
  request [("cardId", JNum (-3)); ("userId", JNum 7); ("title", JStr "x");
           ("content", JStr "y"); ("status", JStr "TO-DO")] [] [].

(** Requests for the card 99, which no store here has, and for the card 3. *)
Definition for_card_99 : CardController.Request := request [] [] [("id", JStr "99")].
Definition for_card_3 : CardController.Request := request [] [] [("id", JStr "3")].

(** A request for the card 4; updates of the card 3: one that gives every
    field, one that gives the title only, and one whose [userId] is no
    integer; a body that brings the key 3. *)
Definition for_card_4 : CardController.Request := request [] [] [("id", JStr "4")].

Definition update_3 : CardController.Request :=
  request [("userId", JNum 8); ("title", JStr "new"); ("content", JStr "y");
           ("status", JStr "DOING")] [] [("id", JStr "3")].

Definition retitle_3 : CardController.Request :=
  request [("title", JStr "new")] [] [("id", JStr "3")].

Definition bad_update_3 : CardController.Request :=
  request [("userId", JStr "abc"); ("title", JStr "new")] [] [("id", JStr "3")].

Definition keyed_3 : CardController.Request :=
  request [("cardId", JNum 3); ("userId", JNum 7); ("title", JStr "x");
           ("content", JStr "y"); ("status", JStr "TO-DO")] [] [].

(** The counts of user 7, and of everybody. *)
Definition count_of_7 : CardController.Request := request [] [("userId", JStr "7")] [].
Definition count_all : CardController.Request := request [] [] [].

Definition new_row (id : Z) (created updated : string) : Instance :=
  {| dataValues := {| cardId := id; userId := DInt 7; title := DStr "x";
                      content := DStr "y"; status := DStr "TO-DO";
                      createdAt := DStr created; updatedAt := DStr updated |};
     userCard_of := NotIncluded |}.

Definition by_field (k : string) (v : JsVal) : CardPersistence.FieldValue :=
  {| CardPersistence.field := k; CardPersistence.value := v |}.

End Sample.

(** * Properties *)

(** ** The effects *)

Lemma trace_set_trace t w : trace (set_trace t w) = t.
Proof. reflexivity. Qed.

Lemma cards_set_trace t w : cards (set_trace t w) = cards w.
Proof. reflexivity. Qed.

Lemma users_set_trace t w : users (set_trace t w) = users w.
Proof. reflexivity. Qed.

Lemma set_trace_set_trace t t' w : set_trace t (set_trace t' w) = set_trace t w.
Proof. reflexivity. Qed.

(** Settles a decidable statement about concrete data by evaluation. *)
Ltac by_evaluation :=
  match goal with
  | |- ?P => apply (bool_decide_unpack P); vm_compute; exact I
  end.

Ltac world_simpl :=
  cbn [trace cards users next_id issued clock ticks snapshot
       set_trace set_cards set_counter set_clock set_snapshot fst snd] in *.

Lemma emitted_app {A} (h : M A) (w : World) (es : list Event) :
  trace (run h w) = trace w ++ es -> emitted h w = es.
Proof.
  intros E. unfold emitted. rewrite E.
  by rewrite drop_app_length.
Qed.

Lemma responses_app {A} (h : M A) (w : World) (es : list Event) :
  trace (run h w) = trace w ++ es -> responses h w = sends es.
Proof. intros E. unfold responses. by rewrite (emitted_app _ _ _ E). Qed.

Lemma filter_all {A} (l : list A) : List.filter (fun _ => true) l = l.
Proof. induction l as [|a l IH]; simpl; [done | by rewrite IH]. Qed.

Lemma filter_ext_bool {A} (f g : A -> bool) (l : list A) :
  (forall a, f a = g a) -> List.filter f l = List.filter g l.
Proof.
  intros E. induction l as [|a l IH]; simpl; [done |].
  rewrite E, IH. done.
Qed.

(** ** WHERE *)

Lemma attribute_get_field (k : string) (c : Card) :
  is_Some (attribute k) <-> is_Some (get_field k c).
Proof.
  assert (Hne : forall a b : string, a <> b -> String.eqb a b = false /\ String.eqb b a = false).
  { intros a b Hab. split; apply String.eqb_neq; congruence. }
  unfold attribute, get_field, Card_attributes; cbn [List.find attr_name].
  repeat match goal with
  | |- context [String.eqb k ?name] =>
      destruct (String.eqb_spec k name) as [-> | Hk];
        [ split; intros _; eexists; reflexivity
        | destruct (Hne _ _ Hk) as [E1 E2]; rewrite ?E1, ?E2; clear E1 E2 Hk ]
  end.
  split; intros [? ?]; discriminate.
Qed.

Lemma where_holds_empty `{SqlDialect} (c : Card) : where_holds ∅ c = true.
Proof. apply bool_decide_eq_true_2, map_Forall_empty. Qed.

Lemma where_holds_insert `{SqlDialect} (m : gmap string Clause) k cl (c : Card) :
  m !! k = None ->
  where_holds (<[k := cl]> m) c = clause_holds c k cl && where_holds m c.
Proof.
  intros Hk. unfold where_holds.
  destruct (clause_holds c k cl) eqn:E; simpl.
  - apply bool_decide_ext. rewrite map_Forall_insert by done. tauto.
  - apply bool_decide_eq_false_2. rewrite map_Forall_insert by done.
    intros [E' _]. congruence.
Qed.

Lemma where_columns_exist_empty : where_columns_exist ∅ = true.
Proof. apply bool_decide_eq_true_2, map_Forall_empty. Qed.

Lemma where_columns_exist_insert (m : gmap string Clause) k cl :
  is_Some (attribute k) ->
  where_columns_exist m = true ->
  where_columns_exist (<[k := cl]> m) = true.
Proof.
  intros Hk Hm. apply bool_decide_eq_true_2.
  apply map_Forall_insert_2; [done |].
  by apply bool_decide_eq_true_1 in Hm.
Qed.

Lemma attribute_userId : is_Some (attribute "userId").
Proof. eexists; reflexivity. Qed.

Lemma attribute_status : is_Some (attribute "status").
Proof. eexists; reflexivity. Qed.

(** ** searchCards *)

Lemma select_searchCards `{SqlDialect} (userId status : JsVal) (cs : list Card) :
  select (q_where (CardPersistence.searchCards_query userId status)) cs
  = Ok (List.filter (searchCards_keeps userId status) cs).
Proof.
  unfold CardPersistence.searchCards_query, searchCards_keeps.
  destruct (truthy userId), (truthy status && strict_neq status (JStr "Todos")); simpl.
  - unfold CardPersistence.spread_with; simpl.
    rewrite where_columns_exist_insert;
      [| apply attribute_status
       | apply where_columns_exist_insert;
           [apply attribute_userId | apply where_columns_exist_empty] ].
    f_equal. apply filter_ext_bool. intros c.
    rewrite where_holds_insert by (by rewrite lookup_insert_ne).
    rewrite where_holds_insert by apply lookup_empty.
    rewrite where_holds_empty. unfold clause_holds; simpl.
    by rewrite andb_true_r, andb_comm.
  - unfold CardPersistence.spread_with; simpl.
    rewrite where_columns_exist_insert;
      [| apply attribute_userId | apply where_columns_exist_empty].
    f_equal. apply filter_ext_bool. intros c.
    rewrite where_holds_insert by apply lookup_empty.
    by rewrite where_holds_empty.
  - unfold CardPersistence.spread_with; simpl.
    rewrite where_columns_exist_insert;
      [| apply attribute_status | apply where_columns_exist_empty].
    f_equal. apply filter_ext_bool. intros c.
    rewrite where_holds_insert by apply lookup_empty.
    by rewrite where_holds_empty, andb_true_r.
  - by rewrite filter_all.
Qed.

Lemma Card_findAll_run `{SqlDialect} (q : Query) (rows : list Card) (w : World) :
  select (q_where q) (cards w) = Ok rows ->
  Card_findAll q w
  = (Ok (hydrate (q_include q) (users w) <$> rows), set_trace (trace w ++ [EvFindAll q]) w).
Proof.
  intros E. unfold Card_findAll, bind, emit, get_world, lift_result, ret; simpl.
  by rewrite E.
Qed.

Lemma searchCards_run `{SqlDialect} (userId status : JsVal) (w : World) :
  CardPersistence.searchCards userId status w
  = (Ok (hydrate [userCard] (users w)
           <$> List.filter (searchCards_keeps userId status) (cards w)),
     set_trace (trace w ++ [EvFindAll (CardPersistence.searchCards_query userId status)]) w).
Proof.
  unfold CardPersistence.searchCards, bind.
  rewrite (Card_findAll_run _ _ _ (select_searchCards userId status (cards w))).
  unfold ret. do 2 f_equal.
  unfold CardPersistence.searchCards_query.
  by destruct (truthy userId), (truthy status && strict_neq status (JStr "Todos")).
Qed.

(** ** The search endpoint *)

Lemma bucket_searchCards `{SqlDialect} (userId : JsVal) (st : string) (w : World) :
  truthy (JStr st) && strict_neq (JStr st) (JStr "Todos") = true ->
  hydrate [userCard] (users w)
    <$> List.filter (searchCards_keeps userId (JStr st)) (cards w)
  = bucket userId st w.
Proof.
  intros E. unfold bucket, searchCards_keeps. by rewrite E.
Qed.

Lemma searchCards_controller_run `{SqlDialect} `{DateHelpers}
    (req : CardController.Request) (w : World) :
  let userId := prop (CardController.query req) "userId" in
  CardController.searchCards req w
  = (Ok tt,
     set_trace (trace w ++
       [ EvFindAll (CardPersistence.searchCards_query userId (JStr "TO-DO"));
         EvFindAll (CardPersistence.searchCards_query userId (JStr "DOING"));
         EvFindAll (CardPersistence.searchCards_query userId (JStr "DONE"));
         EvSend 200 (BBuckets (bucket userId "TO-DO" w) (bucket userId "DOING" w)
                              (bucket userId "DONE" w)) ]) w).
Proof.
  intros userId. unfold CardController.searchCards, try_catch, bind.
  fold userId.
  do 3 (rewrite searchCards_run; cbv beta iota; world_simpl).
  rewrite !bucket_searchCards by reflexivity.
  unfold res_status_send, emit; world_simpl.
  by rewrite <- !app_assoc.
Qed.

(** C2.  Whatever the request, the search endpoint asks the store three
    times, for the status TO-DO, then DOING, then DONE (each time with the
    query string's [userId], which filters when it has a value), and answers
    200 with the three lists; a status (or any other parameter) in the query
    string changes nothing. *)
Theorem C2_search_three_buckets `{SqlDialect} `{DateHelpers}
    (req : CardController.Request) (w : World) :
  let userId := prop (CardController.query req) "userId" in
  let answer := BBuckets (bucket userId "TO-DO" w) (bucket userId "DOING" w)
                         (bucket userId "DONE" w) in
  emitted (CardController.searchCards req) w
  = [ EvFindAll (CardPersistence.searchCards_query userId (JStr "TO-DO"));
      EvFindAll (CardPersistence.searchCards_query userId (JStr "DOING"));
      EvFindAll (CardPersistence.searchCards_query userId (JStr "DONE"));
      EvSend 200 answer ]
  /\ responses (CardController.searchCards req) w = [(200, answer)]
  /\ cards (run (CardController.searchCards req) w) = cards w
  /\ (forall v : JsVal,
        CardController.searchCards (with_query "status" v req) w
        = CardController.searchCards req w).
Proof.
  intros userId answer.
  pose proof (searchCards_controller_run req w) as E; simpl in E.
  assert (T : trace (run (CardController.searchCards req) w) = trace w ++
     [ EvFindAll (CardPersistence.searchCards_query userId (JStr "TO-DO"));
       EvFindAll (CardPersistence.searchCards_query userId (JStr "DOING"));
       EvFindAll (CardPersistence.searchCards_query userId (JStr "DONE"));
       EvSend 200 answer ]).
  { unfold run. by rewrite E. }
  split; [by apply emitted_app |].
  split; [by rewrite (responses_app _ _ _ T) |].
  split; [unfold run; by rewrite E |].
  intros v. rewrite E.
  pose proof (searchCards_controller_run (with_query "status" v req) w) as E'; simpl in E'.
  rewrite E'. unfold prop. by rewrite lookup_insert_ne.
Qed.

(** ** The search of the persistence layer *)

(** C3.  The filter [searchCards] builds has a [userId] clause exactly when
    [userId] is truthy and a [status] clause exactly when [status] is truthy
    and is not "Todos", and no other clause; the owner is always included;
    the rows returned are those the clauses keep, all of them when there is
    no clause; and "Todos" gives what [undefined] gives. *)
Theorem C3_searchCards_filter `{SqlDialect} (userId status : JsVal) (w : World) :
  let query := CardPersistence.searchCards_query userId status in
  let clauses := default ∅ (q_where query) in
  let by_status := truthy status && strict_neq status (JStr "Todos") in
  clauses !! "userId" = (if truthy userId then Some (OpAnd_OpEq userId) else None)
  /\ clauses !! "status" = (if by_status then Some (OpAnd_OpEq status) else None)
  /\ (forall k, k <> "userId" -> k <> "status" -> clauses !! k = None)
  /\ q_include query = [userCard]
  /\ fst (CardPersistence.searchCards userId status w)
     = Ok (hydrate [userCard] (users w)
             <$> List.filter (searchCards_keeps userId status) (cards w))
  /\ (truthy userId = false -> by_status = false ->
      fst (CardPersistence.searchCards userId status w)
      = Ok (hydrate [userCard] (users w) <$> cards w))
  /\ CardPersistence.searchCards userId (JStr "Todos") w
     = CardPersistence.searchCards userId JUndefined w.
Proof.
  intros query clauses by_status.
  assert (Q : query = CardPersistence.searchCards_query userId status) by reflexivity.
  unfold CardPersistence.searchCards_query in Q. fold by_status in Q.
  repeat apply conj.
  - subst clauses. rewrite Q.
    destruct (truthy userId), by_status; simpl; unfold CardPersistence.spread_with; simpl;
      by simplify_map_eq.
  - subst clauses. rewrite Q.
    destruct (truthy userId), by_status; simpl; unfold CardPersistence.spread_with; simpl;
      by simplify_map_eq.
  - intros k Hu Hs. subst clauses. rewrite Q.
    destruct (truthy userId), by_status; simpl; unfold CardPersistence.spread_with; simpl;
      by simplify_map_eq.
  - rewrite Q. by destruct (truthy userId), by_status.
  - by rewrite searchCards_run.
  - intros Eu Es. rewrite searchCards_run; simpl.
    do 2 f_equal. rewrite <- (filter_all (cards w)) at 2.
    apply filter_ext_bool. intros c. unfold searchCards_keeps.
    fold by_status. by rewrite Eu, Es.
  - rewrite !searchCards_run. f_equal.
Qed.

(** ** The clock and the error response *)

Lemma set_trace_same (w : World) : set_trace (trace w) w = w.
Proof. by destruct w. Qed.

Lemma new_Date_run (w : World) : new_Date w = (Ok (clock w), run new_Date w).
Proof. reflexivity. Qed.

Lemma tick_set_trace t (w : World) :
  run new_Date (set_trace t w) = set_trace t (run new_Date w).
Proof. unfold run, new_Date; simpl. by destruct (ticks w). Qed.

Lemma tick_keeps (w : World) :
  trace (run new_Date w) = trace w
  /\ cards (run new_Date w) = cards w
  /\ users (run new_Date w) = users w
  /\ next_id (run new_Date w) = next_id w
  /\ issued (run new_Date w) = issued w
  /\ snapshot (run new_Date w) = snapshot w.
Proof. unfold run, new_Date; simpl. by destruct (ticks w). Qed.

Lemma cards_tick (w : World) : cards (run new_Date w) = cards w.
Proof. apply tick_keeps. Qed.

Lemma users_tick (w : World) : users (run new_Date w) = users w.
Proof. apply tick_keeps. Qed.

Lemma trace_tick (w : World) : trace (run new_Date w) = trace w.
Proof. apply tick_keeps. Qed.

Lemma next_id_tick (w : World) : next_id (run new_Date w) = next_id w.
Proof. apply tick_keeps. Qed.

Lemma issued_tick (w : World) : issued (run new_Date w) = issued w.
Proof. apply tick_keeps. Qed.

Lemma snapshot_tick (w : World) : snapshot (run new_Date w) = snapshot w.
Proof. apply tick_keeps. Qed.

Lemma tick_set_snapshot s (w : World) :
  run new_Date (set_snapshot s w) = set_snapshot s (run new_Date w).
Proof. unfold run, new_Date; simpl. by destruct (ticks w). Qed.

Lemma clock_tick (w : World) : clock (run new_Date w) = reading 1 w.
Proof. reflexivity. Qed.

Ltac tick_simpl :=
  repeat progress
    (world_simpl;
     rewrite ?tick_set_snapshot, ?tick_set_trace, ?cards_tick, ?trace_tick, ?users_tick,
             ?next_id_tick, ?issued_tick, ?snapshot_tick, ?clock_tick).

Lemma sendErrorMessage_run `{DateHelpers} (error : option Error)
    (category action : string) (code : Z) (type message : string) (w : World) :
  sendErrorMessage error category action code type message w
  = (Ok tt,
     set_trace (trace w ++
       [ EvLog category action type;
         EvSend code (BError {| Store.code := code; Store.type := type;
                                Store.message := message;
                                date := formatDatetime (clock w) |}) ])
       (run new_Date w)).
Proof.
  unfold sendErrorMessage, bind, emit, res_status_send, emit.
  rewrite new_Date_run, tick_set_trace; world_simpl.
  by rewrite <- app_assoc.
Qed.

(** ** Lookup by primary key *)

Lemma Card_findByPk_run `{SqlDialect} (id : JsVal) (include : list Association) (w : World) :
  Card_findByPk id include w
  = (Ok (hydrate include (users w) <$> card_with_key id w),
     set_trace (trace w ++ lookup_events id include) w).
Proof.
  destruct id; simpl; unfold ret;
    rewrite ?app_nil_r, ?set_trace_same; reflexivity.
Qed.

Lemma card_with_key_none `{SqlDialect} (id : JsVal) (w : World) :
  (forall c, c ∈ cards w -> sql_eq (DInt (cardId c)) id = false) ->
  card_with_key id w = None.
Proof.
  intros Hno. unfold card_with_key.
  assert (E : List.find (fun c => sql_eq (DInt (cardId c)) id) (cards w) = None).
  { destruct (List.find _ _) as [c|] eqn:F; [| done].
    apply find_some in F as [Hin Hc].
    rewrite (Hno c) in Hc; [done | by apply list_elem_of_In]. }
  by destruct id.
Qed.

Lemma findCardById_run `{SqlDialect} (id : JsVal) (w : World) :
  CardPersistence.findCardById id w
  = (Ok (hydrate [userCard] (users w) <$> card_with_key id w),
     set_trace (trace w ++ lookup_events id [userCard]) w).
Proof.
  unfold CardPersistence.findCardById, bind. rewrite Card_findByPk_run.
  by destruct (card_with_key id w).
Qed.

(** C4.  When no card has the key, the persistence layer returns [null]
    without raising and the endpoint answers 500 with the message "Card não
    encontrado" (card not found); when a card has it, the endpoint answers
    200 with that record. *)
Theorem C4_find_by_id `{SqlDialect} `{DateHelpers}
    (req : CardController.Request) (w : World) :
  let id := prop (CardController.params req) "id" in
  ((forall c, c ∈ cards w -> sql_eq (DInt (cardId c)) id = false) ->
     fst (CardPersistence.findCardById id w) = Ok None
     /\ responses (CardController.findCardById req) w
        = [(500, BError {| code := 500; type := "error";
                           message := "Card não encontrado";
                           date := formatDatetime (clock w) |})])
  /\ (forall c, card_with_key id w = Some c ->
        fst (CardPersistence.findCardById id w) = Ok (Some (hydrate [userCard] (users w) c))
        /\ responses (CardController.findCardById req) w
           = [(200, BInstance (hydrate [userCard] (users w) c))]).
Proof.
  intros id. split.
  - intros Hno. apply card_with_key_none in Hno.
    rewrite findCardById_run, Hno. split; [done |].
    assert (T : trace (run (CardController.findCardById req) w)
      = trace w ++ lookup_events id [userCard] ++
        [ EvLog "CARDS" "PESQUISA DE CARD POR ID" "error";
          EvSend 500 (BError {| code := 500; type := "error";
                                message := "Card não encontrado";
                                date := formatDatetime (clock w) |}) ]).
    { unfold run, CardController.findCardById, try_catch, bind. fold id.
      rewrite findCardById_run, Hno; cbn [fmap option_fmap option_map].
      rewrite sendErrorMessage_run; world_simpl.
      by rewrite <- app_assoc. }
    rewrite (responses_app _ _ _ T). unfold sends. rewrite omap_app. by destruct id.
  - intros c Hc. rewrite findCardById_run, Hc. split; [done |].
    assert (T : trace (run (CardController.findCardById req) w)
      = trace w ++ lookup_events id [userCard] ++
        [ EvSend 200 (BInstance (hydrate [userCard] (users w) c)) ]).
    { unfold run, CardController.findCardById, try_catch, bind. fold id.
      rewrite findCardById_run, Hc; cbn [fmap option_fmap option_map].
      unfold res_status_send, emit; world_simpl.
      by rewrite <- app_assoc. }
    rewrite (responses_app _ _ _ T). unfold sends. rewrite omap_app. by destruct id.
Qed.

(** ** Updating *)

(** C5.  When no card has the key, the update endpoint answers 404 with the
    message "Card não encontrado", the table and the counter are what they
    were, and the transaction it opened is committed after the answer. *)
Theorem C5_update_not_found `{SqlDialect} `{DateHelpers}
    (req : CardController.Request) (w : World) :
  let id := prop (CardController.params req) "id" in
  let after := run (CardController.updateCard req) w in
  let answer := BError {| code := 404; type := "warning";
                          message := "Card não encontrado";
                          date := formatDatetime (reading 1 w) |} in
  (forall c, c ∈ cards w -> sql_eq (DInt (cardId c)) id = false) ->
  emitted (CardController.updateCard req) w
  = [EvTransaction] ++ lookup_events id [userCard]
    ++ [EvLog "CARDS" "ALTERAÇÃO DE CARD" "warning"; EvSend 404 answer; EvCommit]
  /\ responses (CardController.updateCard req) w = [(404, answer)]
  /\ cards after = cards w
  /\ users after = users w
  /\ next_id after = next_id w
  /\ snapshot after = None.
Proof.
  intros id after answer Hno. apply card_with_key_none in Hno.
  assert (E : CardController.updateCard req w
    = (Ok tt,
       set_snapshot None
         (set_trace (trace w ++ [EvTransaction] ++ lookup_events id [userCard]
            ++ [EvLog "CARDS" "ALTERAÇÃO DE CARD" "warning"; EvSend 404 answer; EvCommit])
            (set_snapshot (Some (cards w)) (run new_Date (run new_Date w)))))).
  { unfold CardController.updateCard, CardController.try_with_transaction.
    unfold sequelize_transaction, try_catch, bind, emit, modify, ret; world_simpl.
    rewrite new_Date_run. fold id.
    unfold CardPersistence.updateCard, bind.
    rewrite Card_findByPk_run.
    unfold card_with_key in *. tick_simpl.
    rewrite Hno; cbn [fmap option_fmap option_map]. unfold ret.
    rewrite sendErrorMessage_run.
    unfold commit, bind, emit, modify. tick_simpl.
    subst answer. by rewrite <- !app_assoc. }
  assert (T : trace after = trace w ++ [EvTransaction] ++ lookup_events id [userCard]
            ++ [EvLog "CARDS" "ALTERAÇÃO DE CARD" "warning"; EvSend 404 answer; EvCommit]).
  { subst after. unfold run. by rewrite E. }
  destruct (tick_keeps w) as (_ & Hc & Hu & Hn & _).
  destruct (tick_keeps (run new_Date w)) as (_ & Hc' & Hu' & Hn' & _).
  repeat apply conj.
  - by apply emitted_app.
  - rewrite (responses_app _ _ _ T). unfold sends. rewrite !omap_app. by destruct id.
  - subst after. unfold run. rewrite E; world_simpl. congruence.
  - subst after. unfold run. rewrite E; world_simpl. congruence.
  - subst after. unfold run. rewrite E; world_simpl. congruence.
  - subst after. unfold run. by rewrite E.
Qed.

(** ** Creating *)

Lemma insert_row_perm (row : Card) (cs : list Card) : insert_row row cs ≡ₚ row :: cs.
Proof.
  induction cs as [|c cs IH]; simpl; [done |].
  destruct (cardId row <? cardId c); [done |].
  rewrite IH. apply Permutation_swap.
Qed.

Lemma length_insert_row (row : Card) (cs : list Card) :
  length (insert_row row cs) = S (length cs).
Proof. by rewrite insert_row_perm. Qed.

(** A row whose key is above every key of the table goes to its end. *)
Lemma insert_row_last (row : Card) (cs : list Card) :
  Forall (fun c => cardId c < cardId row) cs -> insert_row row cs = cs ++ [row].
Proof.
  induction 1 as [|c cs Hc _ IH]; simpl; [done |].
  destruct (Z.ltb_spec (cardId row) (cardId c)); [lia | by rewrite IH].
Qed.

(** The rows that were there keep their order around the new one. *)
Lemma insert_row_split (row : Card) (cs : list Card) :
  exists before behind, cs = before ++ behind /\ insert_row row cs = before ++ row :: behind.
Proof.
  induction cs as [|c cs (before & behind & E1 & E2)]; simpl.
  - by exists [], [].
  - destruct (cardId row <? cardId c).
    + by exists [], (c :: cs).
    + exists (c :: before), behind. simpl. by rewrite <- E1, E2.
Qed.

Lemma Card_create_cases `{SqlDialect} (v : CardValues) (t : Transaction) (w : World) :
  let logged := set_trace (trace w ++ [EvCreate v]) w in
  (exists row,
      Card_create v (options_with t) w
      = (Ok {| dataValues := row; userCard_of := NotIncluded |},
         set_counter (Z.max (next_id w) (cardId row + 1)) (cardId row :: issued w)
           (set_cards (insert_row row (cards w)) logged))
      /\ new_primary_key (v_cardId v) w = Ok (cardId row)
      /\ existsb (fun c => cardId c =? cardId row) (cards w) = false
      /\ sql_cast STRING (v_createdAt v) = Some (createdAt row)
      /\ sql_cast STRING (v_updatedAt v) = Some (updatedAt row))
  \/ (exists e, Card_create v (options_with t) w = (Throw e, logged)).
Proof.
  intros logged. subst logged.
  unfold Card_create, connection_of, bind, emit, get_world, lift_result, cast, modify,
    ret, throw.
  world_simpl.
  replace (new_primary_key (v_cardId v) (set_trace (trace w ++ [EvCreate v]) w))
    with (new_primary_key (v_cardId v) w) by (by destruct (v_cardId v)).
  destruct (new_primary_key (v_cardId v) w) as [pk|e] eqn:Epk; [| right; by eexists].
  destruct (sql_cast INTEGER (v_userId v)) as [uid|]; [| right; by eexists].
  destruct (sql_cast STRING (v_title v)) as [ttl|]; [| right; by eexists].
  destruct (sql_cast STRING (v_content v)) as [cnt|]; [| right; by eexists].
  destruct (sql_cast STRING (v_status v)) as [sts|]; [| right; by eexists].
  destruct (sql_cast STRING (v_createdAt v)) as [cre|]; [| right; by eexists].
  destruct (sql_cast STRING (v_updatedAt v)) as [upd|]; [| right; by eexists].
  destruct (existsb _ _) eqn:Ex; [right; by eexists |].
  left. eexists {| cardId := pk |}. by repeat apply conj.
Qed.

(** What the creation endpoint does: it stores a row, commits and answers
    201 with it; or it rolls back and answers 500. *)
Lemma createCard_outcome `{SqlDialect} `{DateHelpers}
    (req : CardController.Request) (w : World) :
  let v := createCard_values req w in
  let after := run (CardController.createCard req) w in
  (exists row,
      trace after = trace w ++
        [ EvTransaction; EvCreate v; EvCommit;
          EvSend 201 (BInstance {| dataValues := row; userCard_of := NotIncluded |}) ]
      /\ cards after = insert_row row (cards w)
      /\ next_id after = Z.max (next_id w) (cardId row + 1)
      /\ issued after = cardId row :: issued w
      /\ new_primary_key (v_cardId v) w = Ok (cardId row)
      /\ existsb (fun c => cardId c =? cardId row) (cards w) = false
      /\ sql_cast STRING (v_createdAt v) = Some (createdAt row)
      /\ sql_cast STRING (v_updatedAt v) = Some (updatedAt row))
  \/ (trace after = trace w ++
        [ EvTransaction; EvCreate v; EvRollback;
          EvLog "CARDS" "CADASTRO DE CARD" "error";
          EvSend 500 (BError {| code := 500; type := "error";
                                message := "Falha ao gerar o cadastro do card, tente novamente mais tarde";
                                date := formatDatetime (reading 2 w) |}) ]
      /\ cards after = cards w
      /\ next_id after = next_id w
      /\ issued after = issued w).
Proof.
  intros v after. subst after.
  unfold run, CardController.createCard, CardController.try_with_transaction.
  unfold sequelize_transaction, try_catch, bind, emit, modify, ret. world_simpl.
  rewrite !new_Date_run. tick_simpl.
  unfold CardPersistence.createCard, bind.
  change (clock w) with (reading 0 w). fold (createCard_values req w). fold v.
  match goal with |- context [Card_create v (options_with ?t) ?w3] =>
    destruct (Card_create_cases v t w3) as [(row & E & Hpk & Hex & Hcre & Hupd) | (e & E)];
    rewrite E; clear E
  end.
  - left. exists row. unfold ret, commit, res_status_send, bind, emit, modify.
    tick_simpl. tick_simpl.
    repeat apply conj; try done.
    + by rewrite <- !app_assoc.
    + rewrite <- Hpk. unfold new_primary_key. by tick_simpl.
    + rewrite <- Hex. by tick_simpl.
  - right. unfold CardController.rollback_if_open, rollback, bind, emit, modify.
    tick_simpl. rewrite sendErrorMessage_run. tick_simpl.
    repeat apply conj; try done.
    by rewrite <- !app_assoc.
Qed.

Lemma existsb_key_false (k : Z) (cs : list Card) :
  existsb (fun c => cardId c =? k) cs = false -> k ∉ cardId <$> cs.
Proof.
  induction cs as [|c cs IH]; simpl; [intros _; apply not_elem_of_nil |].
  intros E. apply orb_false_iff in E as [E1 E2].
  apply not_elem_of_cons. split; [| by apply IH].
  apply Z.eqb_neq in E1. congruence.
Qed.

(** C6, as the code has it.  A creation that succeeds answers 201 with the
    row it stored, whose key was not in the table and which takes the place
    its key gives it.  When the body gives no
    [cardId] (undefined or null, or what the database reads as no value) the
    key is the value of the counter: it is positive, no row ever had it, and
    the row comes after all the others.
    When the body gives an integer, the row carries the given key.  [createdAt] and [updatedAt] are the formats of
    two successive readings of the clock, equal when the two formats are.
    The store stays well formed. *)
Theorem C6_created_record `{SqlDialect} `{DateHelpers}
    (req : CardController.Request) (w : World) (r : Instance) :
  let given := prop (CardController.body req) "cardId" in
  let after := run (CardController.createCard req) w in
  let key := cardId (dataValues r) in
  store_ok w ->
  responses (CardController.createCard req) w = [(201, BInstance r)] ->
  cards after = insert_row (dataValues r) (cards w)
  /\ (key ∉ cardId <$> cards w)
  /\ (given = JUndefined \/ given = JNull \/ sql_cast INTEGER given = Some DNull ->
        key = next_id w /\ 0 < key /\ (key ∉ issued w)
        /\ cards after = cards w ++ [dataValues r])
  /\ (forall k, given <> JUndefined -> given <> JNull ->
        sql_cast INTEGER given = Some (DInt k) -> key = k)
  /\ sql_cast STRING (JStr (formatDatabaseDatetime (reading 0 w)))
       = Some (createdAt (dataValues r))
  /\ sql_cast STRING (JStr (formatDatabaseDatetime (reading 1 w)))
       = Some (updatedAt (dataValues r))
  /\ (formatDatabaseDatetime (reading 0 w) = formatDatabaseDatetime (reading 1 w) ->
        createdAt (dataValues r) = updatedAt (dataValues r))
  /\ store_ok after.
Proof.
  intros given after key (Hpos & Hiss & Hrows & Hnodup) Hresp.
  destruct (createCard_outcome req w)
    as [(row & T & Hc & Hn & Hi & Hpk & Hex & Hcre & Hupd) | (T & _)];
    rewrite (responses_app _ _ _ T) in Hresp; simpl in Hresp; [| discriminate].
  injection Hresp as <-. subst key; simpl in *. fold given in Hpk.
  fold after in Hc, Hn, Hi.
  pose proof (existsb_key_false _ _ Hex) as Hfree.
  assert (Hlt : Forall (fun k => k < Z.max (next_id w) (cardId row + 1)) (issued w)).
  { eapply Forall_impl; [exact Hiss |]. simpl. lia. }
  repeat apply conj; try done.
  - intros Hgiven.
    assert (E : cardId row = next_id w).
    { unfold new_primary_key in Hpk.
      destruct Hgiven as [-> | [-> | Hnull]]; [congruence | congruence |].
      rewrite Hnull in Hpk. destruct given; congruence. }
    rewrite E. repeat apply conj; try done.
    + intros Hin. rewrite Forall_forall in Hiss. specialize (Hiss _ Hin). lia.
    + rewrite Hc. apply insert_row_last. rewrite E.
      eapply Forall_impl; [exact Hrows |]. simpl. intros c Hin.
      rewrite Forall_forall in Hiss. by apply Hiss.
  - intros k H1 H2 Hk. unfold new_primary_key in Hpk.
    rewrite Hk in Hpk. destruct given; congruence.
  - intros E. unfold createCard_values in Hcre, Hupd; simpl in Hcre, Hupd.
    rewrite E in Hcre. congruence.
  - rewrite Hn. lia.
  - rewrite Hn, Hi. constructor; [lia | done].
  - rewrite Hc, Hi, insert_row_perm. constructor.
    + by apply elem_of_cons; left.
    + eapply Forall_impl; [exact Hrows |]. simpl. intros c Hin. by apply elem_of_cons; right.
  - rewrite Hc, insert_row_perm, fmap_cons. by apply NoDup_cons.
Qed.

(** ** Search by parameters *)

Lemma findCardByParameters_query_spec (ps : list CardPersistence.FieldValue) :
  CardPersistence.findCardByParameters_query ps
  = {| q_subQuery := None; q_distinct := None; q_duplicating := None;
       q_include := []; q_where := Some (parameters_where ps) |}.
Proof.
  unfold CardPersistence.findCardByParameters_query, parameters_where.
  generalize (∅ : gmap string Clause) as m.
  induction ps as [|p ps IH]; intros m; [done |].
  cbn [fold_left foldl].
  rewrite <- IH. reflexivity.
Qed.

Lemma parameters_where_snoc ps p :
  parameters_where (ps ++ [p])
  = <[CardPersistence.field p := OpAnd_OpEq (CardPersistence.value p)]> (parameters_where ps).
Proof. unfold parameters_where. by rewrite foldl_snoc. Qed.

(** A key of the where-object holds the value of the last parameter that
    names it. *)
Lemma parameters_where_last ps p :
  parameters_where (ps ++ [p]) !! CardPersistence.field p
  = Some (OpAnd_OpEq (CardPersistence.value p)).
Proof. rewrite parameters_where_snoc. apply lookup_insert_eq. Qed.

Lemma parameters_where_none ps k :
  k ∉ CardPersistence.field <$> ps -> parameters_where ps !! k = None.
Proof.
  induction ps as [|p ps IH] using rev_ind; intros Hk; [apply lookup_empty |].
  rewrite fmap_app in Hk. apply not_elem_of_app in Hk as [Hk1 Hk2].
  rewrite parameters_where_snoc, lookup_insert_ne; [by apply IH |].
  intros E. apply Hk2. simpl. rewrite E. apply list_elem_of_here.
Qed.

Lemma find_ext_bool {A} (f g : A -> bool) (l : list A) :
  (forall a, f a = g a) -> List.find f l = List.find g l.
Proof.
  intros E. induction l as [|a l IH]; simpl; [done |].
  by rewrite E, IH.
Qed.

Lemma head_filter_find {A} (f : A -> bool) (l : list A) :
  head (List.filter f l) = List.find f l.
Proof. induction l as [|a l IH]; simpl; [done |]. by destruct (f a). Qed.

Lemma Card_findOne_run `{SqlDialect} (q : Query) (rows : list Card) (w : World) :
  select (q_where q) (cards w) = Ok rows ->
  Card_findOne q w
  = (Ok (hydrate (q_include q) (users w) <$> head rows),
     set_trace (trace w ++ [EvFindOne q]) w).
Proof.
  intros E. unfold Card_findOne, bind, emit, get_world, lift_result, ret; world_simpl.
  by rewrite E.
Qed.

(** X23.  With fields that are columns, each named once, the filter is the
    conjunction of the pairs and the first row that satisfies it is returned,
    or [null] (with no pair at all, the first row of the table); the owner
    is not loaded. *)
Lemma findCardByParameters_distinct `{SqlDialect}
    (ps : list CardPersistence.FieldValue) (w : World) :
  NoDup (CardPersistence.field <$> ps) ->
  Forall (fun p => is_Some (attribute (CardPersistence.field p))) ps ->
  fst (CardPersistence.findCardByParameters ps w)
  = Ok ((fun c => {| dataValues := c; userCard_of := NotIncluded |})
          <$> List.find (satisfies_all ps) (cards w)).
Proof.
  intros Hnd Hcols.
  assert (Hex : where_columns_exist (parameters_where ps) = true).
  { clear Hnd. induction ps as [|p ps IH] using rev_ind; [apply where_columns_exist_empty |].
    apply Forall_app in Hcols as [Hps Hp]. rewrite parameters_where_snoc.
    apply where_columns_exist_insert; [by inversion Hp | by apply IH]. }
  assert (Hholds : forall c, where_holds (parameters_where ps) c = satisfies_all ps c).
  { intros c. clear Hcols Hex.
    induction ps as [|p ps IH] using rev_ind; [apply where_holds_empty |].
    rewrite fmap_app in Hnd. apply NoDup_app in Hnd as (Hnd & Hfresh & _).
    rewrite parameters_where_snoc, where_holds_insert.
    - unfold satisfies_all. rewrite forallb_app; simpl.
      rewrite andb_true_r, andb_comm. f_equal. by apply IH.
    - apply parameters_where_none. intros Hin. apply (Hfresh _ Hin).
      simpl. apply list_elem_of_here. }
  unfold CardPersistence.findCardByParameters, call_with_extra_argument, bind.
  rewrite findCardByParameters_query_spec.
  erewrite Card_findOne_run by (simpl; rewrite Hex; reflexivity).
  simpl. rewrite head_filter_find.
  rewrite (find_ext_bool _ _ _ Hholds).
  by destruct (List.find _ _).
Qed.

(** Whatever the parameters, a record that is returned comes without its
    owner: the include given as a second argument never reaches the query. *)
Lemma findCardByParameters_owner_not_loaded `{SqlDialect}
    (ps : list CardPersistence.FieldValue) (w : World) (r : Instance) :
  fst (CardPersistence.findCardByParameters ps w) = Ok (Some r) ->
  userCard_of r = NotIncluded.
Proof.
  unfold CardPersistence.findCardByParameters, call_with_extra_argument, bind.
  rewrite findCardByParameters_query_spec.
  unfold Card_findOne, bind, emit, get_world, lift_result, ret; world_simpl.
  destruct (select _ _) as [rows|]; simpl; [| done].
  destruct (head rows); simpl; [| done].
  by intros [= <-].
Qed.

(** ** The route table *)

(** A route that takes a request is one of the stack. *)
Lemma dispatch_reached (m : Router.Method) (url : string) (stack : list Router.Route)
    (r : Router.Route) :
  Router.dispatch m url stack = Router.Reached r ->
  r ∈ stack /\ Router.handles_method r m = true.
Proof.
  induction stack as [|r' stack IH]; simpl; [done |].
  destruct (Router.layer_match _ _); [| | done].
  - intros E. destruct (IH E). split; [by apply elem_of_cons; right | done].
  - destruct (Router.handles_method r' m) eqn:Hm.
    + intros [= <-]. split; [by apply elem_of_cons; left | done].
    + intros E. destruct (IH E). split; [by apply elem_of_cons; right | done].
Qed.

(** When no route takes the request, it is the decoding of the parameters
    that tells whether the end of the stack is reached. *)
Lemma dispatch_not_reached (m : Router.Method) (url : string) (stack : list Router.Route) :
  (forall r, Router.dispatch m url stack <> Router.Reached r) ->
  Router.dispatch m url stack
  = if forallb (fun r => match Router.layer_match (Router.path r) url with
                         | Router.FailsToDecode => false
                         | _ => true
                         end) stack
    then Router.Unmatched else Router.NotDecoded.
Proof.
  induction stack as [|r' stack IH]; simpl; [done |].
  destruct (Router.layer_match _ _); simpl; [exact IH | | done].
  destruct (Router.handles_method r' m); [| exact IH].
  intros Hno. by destruct (Hno r').
Qed.

(** C8.  The routes that do not ask for a token are exactly three: creating
    a user, logging in and starting a password recovery; each of them is
    what its request reaches; every other declared route asks for the
    token, and so does every route a request for anything else reaches. *)
Theorem C8_open_routes :
  let open := [ (Router.POST, "/users/"); (Router.POST, "/users/login");
                (Router.POST, "/users/recovery") ] in
  (fun r => (Router.method r, Router.path r))
    <$> List.filter (fun r => negb (Router.requires_token r)) Router.routes = open
  /\ Forall (fun r => Router.requires_token r = false
                      <-> (Router.method r, Router.path r) ∈ open) Router.routes
  /\ Forall (fun '(m, url) => exists r, Router.req_route m url = Some r
                                        /\ Router.middlewares r = []) open
  /\ (forall m url r, Router.req_route m url = Some r ->
        (Router.method r, Router.path r) ∉ open -> Router.requires_token r = true)
  /\ length Router.routes = 13%nat.
Proof.
  intros open.
  assert (Htable : Forall (fun r => Router.requires_token r = false
                      <-> (Router.method r, Router.path r) ∈ open) Router.routes).
  { subst open. by_evaluation. }
  repeat apply conj.
  - reflexivity.
  - exact Htable.
  - subst open. repeat constructor; eexists; split; reflexivity.
  - intros m url r Hr Hopen.
    assert (Hin : r ∈ Router.routes).
    { unfold Router.req_route in Hr.
      destruct (Router.dispatch m url Router.routes) as [r'| |] eqn:E; [| done | done].
      injection Hr as ->. by apply (dispatch_reached m url). }
    rewrite Forall_forall in Htable.
    destruct (Router.requires_token r) eqn:E; [done |].
    exfalso. apply Hopen. by apply (Htable r Hin).
  - reflexivity.
Qed.

(** ** The fallback of the router *)

(** C9, as the code has it.  A request that no declared route takes, and
    whose path gives no layer a parameter that cannot be decoded, gets the
    status 404 and the payload [{code: 404, type: "error", message: "Rota não
    encontrada", date}], the date being the formatted reading of the clock;
    nothing else is done.  When a layer cannot decode its parameter (a
    malformed percent-escape where [/cards/:id] or [/users/:id] has [:id])
    the function of [router.use] does not run: nothing is sent by the
    router and the error leaves it. *)
Theorem C9_fallback_404 `{DateHelpers} (m : Router.Method) (url : string) (w : World) :
  let payload := {| code := 404; type := "error"; message := "Rota não encontrada";
                    date := formatDatetime (clock w) |} in
  Router.req_route m url = None ->
  (Router.parameters_decode url = true ->
     fst (Router.router_handle m url w) = Ok None
     /\ emitted (Router.router_handle m url) w = [EvSend 404 (BError payload)]
     /\ responses (Router.router_handle m url) w = [(404, BError payload)]
     /\ cards (run (Router.router_handle m url) w) = cards w)
  /\ (Router.parameters_decode url = false ->
      Router.router_handle m url w = (Throw URIError, w)).
Proof.
  intros payload Hnone.
  assert (D : Router.dispatch m url Router.routes
              = if Router.parameters_decode url then Router.Unmatched
                else Router.NotDecoded).
  { apply dispatch_not_reached. intros r E.
    unfold Router.req_route in Hnone. by rewrite E in Hnone. }
  split; intros Hdec; rewrite Hdec in D.
  - assert (E : Router.router_handle m url w
                = (Ok None, set_trace (trace w ++ [EvSend 404 (BError payload)])
                              (run new_Date w))).
    { unfold Router.router_handle. rewrite D.
      unfold Router.fallback, bind, res_status_send, emit, ret.
      rewrite new_Date_run. by tick_simpl. }
    assert (T : trace (run (Router.router_handle m url) w)
                = trace w ++ [EvSend 404 (BError payload)]).
    { unfold run. by rewrite E. }
    repeat apply conj.
    + by rewrite E.
    + by apply emitted_app.
    + by rewrite (responses_app _ _ _ T).
    + unfold run. rewrite E. by tick_simpl.
  - unfold Router.router_handle. by rewrite D.
Qed.

(** ** Counting by status *)

Lemma db_leb_total (a b : DbVal) : db_leb a b = true \/ db_leb b a = true.
Proof.
  destruct a as [| x | s], b as [| y | t]; simpl; auto.
  - destruct (Z.leb_spec x y); [by left | right]. apply Z.leb_le. lia.
  - apply String.leb_total.
Qed.

#[local] Instance db_ge_total : Total db_ge.
Proof.
  intros x y. unfold db_ge, db_le.
  destruct (db_leb_total y x) as [E | E]; [left | right]; by apply Is_true_true.
Qed.

Lemma select_count `{SqlDialect} (userId : JsVal) (w : World) :
  select (g_where (CardPersistence.countCardsByStatus_query userId)) (cards w)
  = Ok (counted_cards userId w).
Proof.
  unfold CardPersistence.countCardsByStatus_query, counted_cards.
  destruct (truthy userId); simpl; [| done].
  unfold CardPersistence.spread_with; simpl.
  rewrite where_columns_exist_insert;
    [| apply attribute_userId | apply where_columns_exist_empty].
  f_equal. apply filter_ext_bool. intros c.
  rewrite where_holds_insert by apply lookup_empty.
  by rewrite where_holds_empty, andb_true_r.
Qed.

Lemma group_rows_status (cs : list Card) :
  group_rows (fun c => default DNull (get_field "status" c))
             (fun c => default DNull (get_field "cardId" c)) true cs
  = grouped_count cs.
Proof.
  unfold group_rows, grouped_count, statuses.
  change (fun c => default DNull (get_field "status" c)) with status.
  apply list_fmap_ext. intros _ s _. f_equal.
  unfold count_in_group, with_status. do 2 f_equal.
  apply filter_ext_bool. intros c. simpl. apply andb_true_r.
Qed.

Lemma countCardsByStatus_run `{SqlDialect} (userId : JsVal) (w : World) :
  CardPersistence.countCardsByStatus userId w
  = (Ok (grouped_count (counted_cards userId w)),
     set_trace (trace w ++
       [EvFindAllGrouped (CardPersistence.countCardsByStatus_query userId)]) w).
Proof.
  unfold CardPersistence.countCardsByStatus, Card_findAll_grouped.
  unfold bind, emit, get_world, lift_result, ret. world_simpl.
  rewrite select_count.
  replace (g_group _) with "status"
    by (unfold CardPersistence.countCardsByStatus_query; by destruct (truthy userId)).
  replace (g_count_col _) with "cardId"
    by (unfold CardPersistence.countCardsByStatus_query; by destruct (truthy userId)).
  replace (g_order_desc _) with true
    by (unfold CardPersistence.countCardsByStatus_query; by destruct (truthy userId)).
  cbn [andb bool_decide]. rewrite group_rows_status.
  reflexivity.
Qed.

Lemma countCards_run `{SqlDialect} `{DateHelpers}
    (req : CardController.Request) (w : World) :
  let userId := prop (CardController.query req) "userId" in
  CardController.countCards req w
  = (Ok tt,
     set_trace (trace w ++
       [ EvFindAllGrouped (CardPersistence.countCardsByStatus_query userId);
         EvSend 200 (BCounts (CardController.cardsTotal_of
                                (grouped_count (counted_cards userId w)))) ]) w).
Proof.
  intros userId. unfold CardController.countCards, try_catch, bind. fold userId.
  rewrite countCardsByStatus_run.
  unfold res_send, emit. world_simpl. by rewrite <- app_assoc.
Qed.

(** *** The rows of the grouped count *)

Lemma grouped_count_statuses (cs : list Card) :
  row_status <$> grouped_count cs = merge_sort db_ge (statuses cs).
Proof.
  unfold grouped_count. rewrite <- list_fmap_compose.
  rewrite <- (list_fmap_id (merge_sort _ _)) at 2.
  by apply list_fmap_ext.
Qed.

Lemma grouped_count_perm (cs : list Card) :
  row_status <$> grouped_count cs ≡ₚ statuses cs.
Proof. rewrite grouped_count_statuses. apply merge_sort_Permutation. Qed.

Lemma grouped_count_length (cs : list Card) :
  length (grouped_count cs) = length (statuses cs).
Proof.
  rewrite <- (length_fmap row_status), grouped_count_statuses.
  apply Permutation_length, merge_sort_Permutation.
Qed.

Lemma grouped_count_sorted (cs : list Card) :
  Sorted db_ge (row_status <$> grouped_count cs).
Proof. rewrite grouped_count_statuses. apply Sorted_merge_sort, _. Qed.

Lemma grouped_count_NoDup (cs : list Card) :
  NoDup (row_status <$> grouped_count cs).
Proof. rewrite grouped_count_perm. apply NoDup_remove_dups. Qed.

Lemma with_status_pos (s : DbVal) (cs : list Card) :
  s ∈ status <$> cs -> 0 < with_status s cs.
Proof.
  intros Hin. apply list_elem_of_fmap in Hin as (c & -> & Hc).
  unfold with_status.
  induction cs as [|c' cs IH]; [by apply elem_of_nil in Hc |].
  simpl. apply elem_of_cons in Hc as [<- | Hc].
  - rewrite bool_decide_eq_true_2 by done. simpl. lia.
  - specialize (IH Hc). destruct (bool_decide _); simpl; lia.
Qed.

Lemma grouped_count_rows (cs : list Card) :
  Forall (fun r => countCards r = with_status (row_status r) cs
                   /\ row_status r ∈ status <$> cs
                   /\ 0 < countCards r) (grouped_count cs).
Proof.
  unfold grouped_count. apply Forall_fmap, Forall_forall. intros s Hs. simpl.
  assert (Hin : s ∈ status <$> cs).
  { unfold statuses in Hs. by rewrite merge_sort_Permutation, elem_of_remove_dups in Hs. }
  split; [done | split; [done | by apply with_status_pos]].
Qed.

(** The counts of the rows add up to the number of cards. *)
Lemma indicator_sum (k : DbVal) (ks : list DbVal) :
  NoDup ks ->
  foldr (fun s acc => (if bool_decide (k = s) then 1 else 0) + acc) 0 ks
  = if bool_decide (k ∈ ks) then 1 else 0.
Proof.
  induction 1 as [| s ks Hs Hnd IH]; simpl; [done |].
  rewrite IH.
  repeat case_bool_decide; subst; try lia; exfalso;
    repeat match goal with
    | H : context [_ ∈ _ :: _] |- _ => rewrite elem_of_cons in H
    end; tauto.
Qed.

Lemma with_status_sum (ks : list DbVal) (cs : list Card) :
  NoDup ks ->
  (forall c, c ∈ cs -> status c ∈ ks) ->
  foldr (fun s acc => with_status s cs + acc) 0 ks = Z.of_nat (length cs).
Proof.
  intros Hnd. induction cs as [|c cs IH]; intros Hall.
  - clear Hnd Hall. induction ks as [|s ks IHk]; [done |].
    cbn [foldr]. rewrite IHk. reflexivity.
  - assert (E : forall l,
        foldr (fun s acc => with_status s (c :: cs) + acc) 0 l
        = foldr (fun s acc => (if bool_decide (status c = s) then 1 else 0) + acc) 0 l
          + foldr (fun s acc => with_status s cs + acc) 0 l).
    { induction l as [|s l IHl]; simpl; [done |]. rewrite IHl.
      unfold with_status; simpl. destruct (bool_decide (status c = s)); simpl; lia. }
    rewrite E, IH, (indicator_sum _ _ Hnd).
    + rewrite bool_decide_eq_true_2 by (apply Hall, list_elem_of_here). simpl length. lia.
    + intros c' Hc'. apply Hall. by apply elem_of_cons; right.
Qed.

Lemma total_grouped_count (cs : list Card) :
  total (grouped_count cs) = Z.of_nat (length cs).
Proof.
  unfold total, grouped_count. rewrite foldr_fmap. simpl.
  rewrite <- (with_status_sum (merge_sort db_ge (statuses cs)) cs).
  - done.
  - rewrite merge_sort_Permutation. apply NoDup_remove_dups.
  - intros c Hc. rewrite merge_sort_Permutation. apply elem_of_remove_dups.
    by apply list_elem_of_fmap_2.
Qed.

(** *** The loop and the array *)

(** While the index is within the array or just past its end, an assignment
    replaces a slot or appends one, and the next index is within again. *)
Lemma count_loop_index (i : nat) (v : Z) (a : list Z) :
  (i <= length a)%nat ->
  array_set i v a = (if decide (i < length a)%nat then <[i := v]> a else a ++ [v])
  /\ (S i <= length (array_set i v a))%nat
  /\ length (array_set i v a) = (length a `max` S i)%nat.
Proof.
  intros Hi. unfold array_set. destruct (decide (i < length a)%nat) as [Hlt | Hge].
  - rewrite length_insert. repeat split; lia.
  - replace (i - length a)%nat with 0%nat by lia. simpl.
    rewrite length_app. simpl. repeat split; lia.
Qed.

Lemma array_set_lookup (i j : nat) (v : Z) (a : list Z) :
  (i <= length a)%nat ->
  array_set i v a !! j = if decide (j = i) then Some v else a !! j.
Proof.
  intros Hi. destruct (count_loop_index i v a Hi) as (-> & _ & _).
  destruct (decide (i < length a)%nat) as [Hlt | Hge].
  - destruct (decide (j = i)) as [-> | Hne].
    + by apply list_lookup_insert_eq.
    + by apply list_lookup_insert_ne.
  - assert (i = length a) as -> by lia.
    destruct (decide (j = length a)) as [-> | Hne].
    + rewrite lookup_app_r by lia. by rewrite Nat.sub_diag.
    + destruct (decide (j < length a)%nat).
      * by rewrite lookup_app_l.
      * rewrite !lookup_ge_None_2; [done | lia | rewrite length_app; simpl; lia].
Qed.

Lemma count_loop_sum (rows : list CountRow) (i : nat) (a : list Z) (sum : Z) :
  snd (CardController.count_loop rows i a sum) = sum + total rows.
Proof.
  revert i a sum. induction rows as [|r rows IH]; intros i a sum; simpl; [lia |].
  rewrite IH. lia.
Qed.

Lemma count_loop_length (rows : list CountRow) (i : nat) (a : list Z) (sum : Z) :
  (i <= length a)%nat ->
  length (fst (CardController.count_loop rows i a sum))
  = (length a `max` (i + length rows))%nat.
Proof.
  revert i a sum. induction rows as [|r rows IH]; intros i a sum Hi; simpl; [lia |].
  destruct (count_loop_index i (countCards r) a Hi) as (_ & Hnext & Hlen).
  rewrite IH by done. lia.
Qed.

(** The loop writes the count of row [j - i] into slot [j] and leaves the
    other slots alone. *)
Lemma count_loop_lookup (rows : list CountRow) (i : nat) (a : list Z) (sum : Z) (j : nat) :
  (i <= length a)%nat ->
  fst (CardController.count_loop rows i a sum) !! j
  = if decide (i <= j < i + length rows)%nat then countCards <$> rows !! (j - i)%nat
    else a !! j.
Proof.
  revert i a sum. induction rows as [|r rows IH]; intros i a sum Hi; simpl.
  - destruct (decide _); [lia | done].
  - destruct (count_loop_index i (countCards r) a Hi) as (_ & Hnext & _).
    rewrite IH by done. rewrite array_set_lookup by done.
    destruct (decide (S i <= j < S i + length rows)%nat) as [Hin | Hout].
    + rewrite decide_True by lia.
      replace (j - i)%nat with (S (j - S i)) by lia. done.
    + destruct (decide (j = i)) as [-> | Hne].
      * rewrite decide_True by lia. by rewrite Nat.sub_diag.
      * rewrite decide_False by lia. done.
Qed.

Lemma cardsTotal_of_spec (rows : list CountRow) :
  CardController.cardsTotal_of rows
  = array_set 3 (total rows) (fst (CardController.count_loop rows 0 [0; 0; 0; 0] 0)).
Proof.
  unfold CardController.cardsTotal_of.
  pose proof (count_loop_sum rows 0 [0; 0; 0; 0] 0) as E.
  destruct (CardController.count_loop rows 0 [0; 0; 0; 0] 0) as [a sum]; simpl in *.
  by rewrite E.
Qed.

Lemma loop_length (rows : list CountRow) :
  length (fst (CardController.count_loop rows 0 [0; 0; 0; 0] 0))
  = (4 `max` length rows)%nat.
Proof. rewrite count_loop_length; simpl; lia. Qed.

Lemma cardsTotal_of_length (rows : list CountRow) :
  length (CardController.cardsTotal_of rows) = (4 `max` length rows)%nat.
Proof.
  rewrite cardsTotal_of_spec.
  destruct (count_loop_index 3 (total rows)
              (fst (CardController.count_loop rows 0 [0; 0; 0; 0] 0))) as (_ & _ & ->);
    rewrite loop_length; lia.
Qed.

Lemma cardsTotal_of_lookup (rows : list CountRow) (j : nat) :
  CardController.cardsTotal_of rows !! j
  = if decide (j = 3%nat) then Some (total rows)
    else if decide (j < length rows)%nat then countCards <$> rows !! j
    else [0; 0; 0; 0] !! j.
Proof.
  rewrite cardsTotal_of_spec, array_set_lookup by (rewrite loop_length; lia).
  destruct (decide (j = 3%nat)); [done |].
  rewrite count_loop_lookup by (simpl; lia).
  rewrite Nat.sub_0_r.
  destruct (decide (j < length rows)%nat).
  - rewrite decide_True by lia. done.
  - rewrite decide_False by lia. done.
Qed.

(** With at most three rows the three slots hold all the counts. *)
Lemma cardsTotal_of_three (rows : list CountRow) :
  (length rows <= 3)%nat ->
  length (CardController.cardsTotal_of rows) = 4%nat
  /\ count_invariant (CardController.cardsTotal_of rows).
Proof.
  intros Hlen. split; [rewrite cardsTotal_of_length; lia |].
  unfold count_invariant. rewrite !nth_lookup, !cardsTotal_of_lookup.
  destruct rows as [| a [| b [| c [| d rest]]]]; simpl in Hlen; try lia;
    cbn; unfold total; simpl; lia.
Qed.

(** C1, as the code has it.  The count endpoint answers with the array for
    the rows of the grouped count; its last slot is the number of cards
    counted; and whenever those cards have at most three distinct status
    values (none at all included) the array has four slots, the last being
    the sum of the three before it. *)
Theorem C1_count_invariant `{SqlDialect} `{DateHelpers}
    (req : CardController.Request) (w : World) :
  let counted := counted_cards (prop (CardController.query req) "userId") w in
  let cardsTotal := CardController.cardsTotal_of (grouped_count counted) in
  (length (statuses counted) <= 3)%nat ->
  responses (CardController.countCards req) w = [(200, BCounts cardsTotal)]
  /\ length cardsTotal = 4%nat
  /\ count_invariant cardsTotal
  /\ nth 3 cardsTotal 0 = Z.of_nat (length counted).
Proof.
  intros counted cardsTotal Hfew.
  pose proof (countCards_run req w) as E; simpl in E.
  assert (T : trace (run (CardController.countCards req) w) = trace w ++
    [ EvFindAllGrouped (CardPersistence.countCardsByStatus_query
                          (prop (CardController.query req) "userId"));
      EvSend 200 (BCounts cardsTotal) ]).
  { unfold run. by rewrite E. }
  destruct (cardsTotal_of_three (grouped_count counted)) as [Hlen Hinv];
    [by rewrite grouped_count_length |].
  repeat apply conj; try done.
  - by rewrite (responses_app _ _ _ T).
  - subst cardsTotal. rewrite nth_lookup, cardsTotal_of_lookup; simpl.
    apply total_grouped_count.
Qed.

(** C10.  The grouped count has one row for each distinct status of the
    cards counted, in descending order of the status, holding the number of
    cards with it.  The loop writes the count of row [i] into slot [i],
    whatever the status of that row; in the array sent, slot 3 then takes the
    sum.  So the array has as many slots as there are rows when these are
    more than four, and with fewer than three rows the slots from the number
    of rows up to 2 keep their 0.  On a board with cards to do and done,
    slot 0 counts the cards to do; with done cards only, it counts those. *)
Theorem C10_positional_slots `{SqlDialect} `{DateHelpers}
    (req : CardController.Request) (w : World) :
  let userId := prop (CardController.query req) "userId" in
  let counted := counted_cards userId w in
  let rows := grouped_count counted in
  let cardsTotal := CardController.cardsTotal_of rows in
  fst (CardPersistence.countCardsByStatus userId w) = Ok rows
  /\ responses (CardController.countCards req) w = [(200, BCounts cardsTotal)]
  /\ row_status <$> rows ≡ₚ statuses counted
  /\ Sorted db_ge (row_status <$> rows)
  /\ Forall (fun r => countCards r = with_status (row_status r) counted
                      /\ row_status r ∈ status <$> counted
                      /\ 0 < countCards r) rows
  /\ (forall i r, rows !! i = Some r ->
        fst (CardController.count_loop rows 0 [0; 0; 0; 0] 0) !! i = Some (countCards r))
  /\ (forall i r, rows !! i = Some r -> i <> 3%nat -> cardsTotal !! i = Some (countCards r))
  /\ cardsTotal !! 3%nat = Some (total rows)
  /\ length cardsTotal = (4 `max` length (statuses counted))%nat
  /\ ((4 < length (statuses counted))%nat ->
        length cardsTotal = length (statuses counted) /\ (4 < length cardsTotal)%nat)
  /\ (forall i, (length (statuses counted) <= i < 3)%nat -> cardsTotal !! i = Some 0)
  /\ CardController.cardsTotal_of (grouped_count (cards Sample.board)) = [2; 1; 0; 3]
  /\ CardController.cardsTotal_of (grouped_count (cards Sample.only_done)) = [1; 0; 0; 1].
Proof.
  intros userId counted rows cardsTotal.
  pose proof (countCards_run req w) as E; simpl in E.
  assert (T : trace (run (CardController.countCards req) w) = trace w ++
    [ EvFindAllGrouped (CardPersistence.countCardsByStatus_query userId);
      EvSend 200 (BCounts cardsTotal) ]).
  { unfold run. by rewrite E. }
  assert (Hlen : length cardsTotal = (4 `max` length (statuses counted))%nat).
  { subst cardsTotal rows. by rewrite cardsTotal_of_length, grouped_count_length. }
  repeat apply conj.
  - by rewrite countCardsByStatus_run.
  - by rewrite (responses_app _ _ _ T).
  - apply grouped_count_perm.
  - apply grouped_count_sorted.
  - apply grouped_count_rows.
  - intros i r Hr. rewrite count_loop_lookup by (simpl; lia).
    pose proof (lookup_lt_Some _ _ _ Hr).
    rewrite decide_True by lia. by rewrite Nat.sub_0_r, Hr.
  - intros i r Hr Hi. subst cardsTotal. rewrite cardsTotal_of_lookup.
    pose proof (lookup_lt_Some _ _ _ Hr).
    rewrite decide_False by done. rewrite decide_True by done. by rewrite Hr.
  - subst cardsTotal. by rewrite cardsTotal_of_lookup.
  - done.
  - intros Hmany. rewrite Hlen. lia.
  - intros i Hi. subst cardsTotal. rewrite cardsTotal_of_lookup.
    rewrite decide_False by lia.
    rewrite decide_False by (subst rows; rewrite grouped_count_length; lia).
    destruct i as [| [| [| i]]]; try done; lia.
  - vm_compute. reflexivity.
  - vm_compute. reflexivity.
Qed.

(** ** The store stays consistent *)

Create HintDb preserves.

Lemma preserves_ret {A} (a : A) : preserves (ret a).
Proof. by intros w Hw. Qed.

Lemma preserves_throw {A} (e : Error) : preserves (throw (A := A) e).
Proof. by intros w Hw. Qed.

Lemma preserves_lift_result {A} (r : Result A) : preserves (lift_result r).
Proof. by intros w Hw. Qed.

Lemma preserves_get_world : preserves get_world.
Proof. by intros w Hw. Qed.

Lemma preserves_bind {A B} (m : M A) (k : A -> M B) :
  preserves m -> (forall a, preserves (k a)) -> preserves (bind m k).
Proof.
  intros Hm Hk w Hw. specialize (Hm w Hw). unfold run, bind in *.
  destruct (m w) as [[a | e] w']; simpl in *; [by apply Hk | done].
Qed.

Lemma preserves_try_catch {A} (m : M A) (h : Error -> M A) :
  preserves m -> (forall e, preserves (h e)) -> preserves (try_catch m h).
Proof.
  intros Hm Hh w Hw. specialize (Hm w Hw). unfold run, try_catch in *.
  destruct (m w) as [[a | e] w']; simpl in *; [done | by apply Hh].
Qed.

Lemma preserves_modify (f : World -> World) :
  (forall w, consistent w -> consistent (f w)) -> preserves (modify f).
Proof. intros Hf w Hw. by apply Hf. Qed.

Lemma consistent_set_trace t (w : World) : consistent w -> consistent (set_trace t w).
Proof. by intros Hw. Qed.

Lemma preserves_emit (e : Event) : preserves (emit e).
Proof. intros w Hw. by apply consistent_set_trace. Qed.

Lemma preserves_new_Date : preserves new_Date.
Proof.
  intros w Hw. unfold run, new_Date; simpl. by destruct (ticks w).
Qed.

#[local] Hint Resolve preserves_ret preserves_throw preserves_lift_result
  preserves_get_world preserves_emit preserves_new_Date : preserves.

(** Splits a computation at its binds and closes what the hints know. *)
Ltac preserves_steps :=
  repeat first
    [ solve [auto with preserves]
    | apply preserves_bind; [| intros ?]
    | apply preserves_try_catch; [| intros ?]
    | match goal with
      | |- preserves (match ?found with Some _ => _ | None => _ end) => destruct found
      end ].

Lemma preserves_res_status_send (s : Z) (b : Body) : preserves (res_status_send s b).
Proof. apply preserves_emit. Qed.

Lemma preserves_res_send (b : Body) : preserves (res_send b).
Proof. apply preserves_emit. Qed.

Lemma preserves_sendErrorMessage `{DateHelpers} error category action code type message :
  preserves (sendErrorMessage error category action code type message).
Proof. unfold sendErrorMessage. preserves_steps. Qed.

#[local] Hint Resolve preserves_res_status_send preserves_res_send
  preserves_sendErrorMessage : preserves.

(** *** The transaction *)

Lemma preserves_sequelize_transaction : preserves sequelize_transaction.
Proof.
  unfold sequelize_transaction. preserves_steps.
  apply preserves_modify. intros w [Hok Hsnap]. split; [done |].
  simpl. by destruct Hok as (_ & _ & Hrows & Hnd).
Qed.

Lemma preserves_commit (t : Transaction) : preserves (commit t).
Proof.
  unfold commit. preserves_steps.
  apply preserves_modify. by intros w [Hok Hsnap].
Qed.

Lemma preserves_rollback (t : Transaction) : preserves (rollback t).
Proof.
  unfold rollback. preserves_steps.
  apply preserves_modify. intros w [Hok Hsnap].
  destruct (snapshot w) as [saved |] eqn:E; [| by split; [| rewrite E]].
  destruct Hok as (Hpos & Hiss & _), Hsnap as [Hrows Hnd].
  by split.
Qed.

#[local] Hint Resolve preserves_sequelize_transaction preserves_commit
  preserves_rollback : preserves.

(** *** The ORM *)

Lemma preserves_Card_findAll `{SqlDialect} (q : Query) : preserves (Card_findAll q).
Proof. unfold Card_findAll. preserves_steps. Qed.

Lemma preserves_Card_findAll_grouped `{SqlDialect} (q : GroupQuery) :
  preserves (Card_findAll_grouped q).
Proof.
  unfold Card_findAll_grouped. preserves_steps.
  destruct (_ && _); auto with preserves.
Qed.

Lemma preserves_Card_findByPk `{SqlDialect} (id : JsVal) (include : list Association) :
  preserves (Card_findByPk id include).
Proof. destruct id; simpl; preserves_steps. Qed.

Lemma preserves_Card_findOne `{SqlDialect} (q : Query) : preserves (Card_findOne q).
Proof. unfold Card_findOne. preserves_steps. Qed.

Lemma preserves_cast `{SqlDialect} (t : DataType) (v : JsVal) : preserves (cast t v).
Proof. unfold cast. destruct (sql_cast t v); auto with preserves. Qed.

#[local] Hint Resolve preserves_Card_findAll preserves_Card_findAll_grouped
  preserves_Card_findByPk preserves_Card_findOne preserves_cast : preserves.

Lemma rows_ok_more (k : Z) (keys : list Z) (cs : list Card) :
  rows_ok keys cs -> rows_ok (k :: keys) cs.
Proof.
  intros [Hrows Hnd]. split; [| done].
  eapply Forall_impl; [exact Hrows |]. simpl. intros c Hc. by apply elem_of_cons; right.
Qed.

Lemma preserves_connection_of (options : Options) : preserves (connection_of options).
Proof. destruct options; simpl; auto with preserves. Qed.

#[local] Hint Resolve preserves_connection_of : preserves.

Lemma preserves_Card_create `{SqlDialect} (v : CardValues) (options : Options) :
  preserves (Card_create v options).
Proof.
  destruct options as [t | inner].
  2: { intros w Hw. unfold run, Card_create, connection_of, bind, emit, throw; simpl.
       by apply consistent_set_trace. }
  intros w [(Hpos & Hiss & Hrows & Hnd) Hsnap]. unfold run.
  destruct (Card_create_cases v t w) as [(row & -> & _ & Hex & _) | (e & ->)]; simpl;
    [| done].
  apply existsb_key_false in Hex.
  split; [repeat apply conj |]; simpl.
  - lia.
  - constructor; [lia |]. eapply Forall_impl; [exact Hiss |]. simpl. lia.
  - rewrite insert_row_perm. constructor.
    + by apply elem_of_cons; left.
    + by apply (rows_ok_more _ _ _ (conj Hrows Hnd)).
  - rewrite insert_row_perm, fmap_cons. by apply NoDup_cons.
  - destruct (snapshot w); [by apply rows_ok_more | done].
Qed.

Lemma preserves_cast_or_keep `{SqlDialect} (t : DataType) (v : JsVal) (kept : DbVal) :
  preserves (cast_or_keep t v kept).
Proof. destruct v; simpl; auto with preserves. Qed.

#[local] Hint Resolve preserves_cast_or_keep : preserves.

Lemma rows_ok_update (keys : list Z) (k : Z) (row : Card) (cs : list Card) :
  cardId row = k ->
  rows_ok keys cs ->
  rows_ok keys ((fun c => if cardId c =? k then row else c) <$> cs).
Proof.
  intros Hk [Hrows Hnd].
  assert (E : cardId <$> ((fun c => if cardId c =? k then row else c) <$> cs)
              = cardId <$> cs).
  { rewrite <- list_fmap_compose. apply list_fmap_ext. intros _ c _. simpl.
    destruct (Z.eqb_spec (cardId c) k); congruence. }
  split; [| by rewrite E].
  apply Forall_fmap. eapply Forall_impl; [exact Hrows |]. simpl. intros c Hc.
  destruct (Z.eqb_spec (cardId c) k); congruence.
Qed.

Lemma rows_ok_filter (keys : list Z) (f : Card -> bool) (cs : list Card) :
  rows_ok keys cs -> rows_ok keys (List.filter f cs).
Proof.
  intros [Hrows Hnd]. induction cs as [| c cs IH]; simpl; [done |].
  apply Forall_cons in Hrows as [Hc Hrows]. rewrite fmap_cons in Hnd.
  apply NoDup_cons in Hnd as [Hfresh Hnd].
  destruct (IH Hrows Hnd) as [IH1 IH2].
  destruct (f c); [| done]. split; [by constructor |].
  rewrite fmap_cons. apply NoDup_cons. split; [| done].
  intros Hin. apply Hfresh.
  apply list_elem_of_fmap in Hin as (c' & -> & Hc').
  apply list_elem_of_fmap_2. apply list_elem_of_In. apply list_elem_of_In in Hc'.
  by apply filter_In in Hc' as [? _].
Qed.

Lemma preserves_instance_update `{SqlDialect} (inst : Instance) (ch : CardChanges)
    (options : Options) :
  preserves (instance_update inst ch options).
Proof.
  unfold instance_update. preserves_steps.
  apply preserves_modify. intros w [(Hpos & Hiss & Hrows & Hnd) Hsnap].
  split; [| done]. repeat apply conj; try done; simpl;
    by eapply rows_ok_update; [reflexivity | split].
Qed.

Lemma preserves_instance_destroy (inst : Instance) (options : Options) :
  preserves (instance_destroy inst options).
Proof.
  unfold instance_destroy. preserves_steps.
  apply preserves_modify. intros w [(Hpos & Hiss & Hrows & Hnd) Hsnap].
  split; [| done]. repeat apply conj; try done; simpl;
    by apply (rows_ok_filter (issued w) _ (cards w) (conj Hrows Hnd)).
Qed.

Lemma preserves_Card_destroy_all (options : Options) :
  preserves (Card_destroy_all options).
Proof.
  unfold Card_destroy_all. preserves_steps.
  apply preserves_modify. intros w [(Hpos & Hiss & _) Hsnap].
  split; [| done]. repeat apply conj; try done; simpl. apply NoDup_nil_2.
Qed.

#[local] Hint Resolve preserves_Card_create preserves_instance_update
  preserves_instance_destroy preserves_Card_destroy_all : preserves.

(** *** The handlers *)

Lemma preserves_try_with_transaction `{SqlDialect} `{DateHelpers}
    (block : Transaction -> M unit) (handler : option Transaction -> Error -> M unit) :
  (forall t, preserves (block t)) ->
  (forall t e, preserves (handler t e)) ->
  preserves (CardController.try_with_transaction block handler).
Proof.
  intros Hblock Hhandler w Hw.
  pose proof (preserves_sequelize_transaction w Hw) as Hopen.
  unfold run, CardController.try_with_transaction in *.
  destruct (sequelize_transaction w) as [[t | e] w']; simpl in *.
  - by apply (preserves_try_catch (block t) (handler (Some t))).
  - by apply Hhandler.
Qed.

Lemma preserves_rollback_if_open `{SqlDialect} `{DateHelpers} (t : option Transaction) :
  preserves (CardController.rollback_if_open t).
Proof. destruct t; simpl; auto with preserves. Qed.

#[local] Hint Resolve preserves_rollback_if_open : preserves.

(** X22.  Every handler of the card controller leaves a consistent store
    consistent, whether it answers with a success or with an error: the
    counter stays ahead of every key ever stored, and the table (and the
    table saved by an open transaction) keeps stored keys, each once. *)
Theorem handlers_preserve_consistency `{SqlDialect} `{DateHelpers}
    (req : CardController.Request) :
  preserves (CardController.createCard req)
  /\ preserves (CardController.searchCards req)
  /\ preserves (CardController.findCardById req)
  /\ preserves (CardController.updateCard req)
  /\ preserves (CardController.deleteCard req)
  /\ preserves (CardController.deleteAllCards req)
  /\ preserves (CardController.countCards req).
Proof.
  repeat apply conj;
    try (apply preserves_try_with_transaction; [intros t | intros t e]);
    unfold CardController.searchCards, CardController.findCardById,
      CardController.countCards, CardPersistence.createCard,
      CardPersistence.searchCards, CardPersistence.findCardById,
      CardPersistence.updateCard, CardPersistence.deleteCard,
      CardPersistence.deleteAllCards, CardPersistence.countCardsByStatus;
    preserves_steps.
Qed.

(** * More of the card code *)

(** ** Deleting *)

Lemma hydrate_without_include (us : list User) (c : Card) :
  hydrate [] us c = {| dataValues := c; userCard_of := NotIncluded |}.
Proof.
  unfold hydrate. by rewrite bool_decide_eq_false_2 by apply not_elem_of_nil.
Qed.

Lemma hydrate_with_owner (us : list User) (c : Card) :
  hydrate [userCard] us c = {| dataValues := c; userCard_of := Included (owner us c) |}.
Proof.
  unfold hydrate. by rewrite bool_decide_eq_true_2 by apply list_elem_of_here.
Qed.

Lemma card_with_key_cards `{SqlDialect} (id : JsVal) (w w' : World) :
  cards w' = cards w -> card_with_key id w' = card_with_key id w.
Proof. intros E. unfold card_with_key. by rewrite E. Qed.

(** What the delete endpoint does when no card has the key. *)
Lemma deleteCard_absent `{SqlDialect} `{DateHelpers}
    (req : CardController.Request) (w : World) :
  let id := prop (CardController.params req) "id" in
  card_with_key id w = None ->
  leaves (run (CardController.deleteCard req) w) w
    ([EvTransaction] ++ lookup_events id []
     ++ [ EvLog "CARDS" "DELEÇÃO DE CARD" "warning";
          EvSend 404 (error_body 404 "warning" "Card não encontrado" (clock w));
          EvCommit ])
    (cards w).
Proof.
  intros id Hno.
  unfold run, CardController.deleteCard, CardController.try_with_transaction.
  unfold sequelize_transaction, try_catch, bind, emit, modify, ret. world_simpl.
  fold id. unfold CardPersistence.deleteCard, bind.
  rewrite Card_findByPk_run.
  unfold card_with_key in *. tick_simpl.
  rewrite Hno; cbn [fmap option_fmap option_map]. unfold ret.
  rewrite sendErrorMessage_run.
  unfold commit, bind, emit, modify, leaves, error_body. tick_simpl.
  repeat apply conj; try done. by rewrite <- !app_assoc.
Qed.

(** What the delete endpoint does when a card has the key. *)
Lemma deleteCard_found `{SqlDialect} `{DateHelpers}
    (req : CardController.Request) (w : World) (c : Card) :
  let id := prop (CardController.params req) "id" in
  card_with_key id w = Some c ->
  leaves (run (CardController.deleteCard req) w) w
    ([EvTransaction] ++ lookup_events id []
     ++ [ EvDestroy (cardId c);
          EvSend 200 (BInstance {| dataValues := c; userCard_of := NotIncluded |});
          EvCommit ])
    (without_key (cardId c) (cards w)).
Proof.
  intros id Hc.
  unfold run, CardController.deleteCard, CardController.try_with_transaction.
  unfold sequelize_transaction, try_catch, bind, emit, modify, ret. world_simpl.
  fold id. unfold CardPersistence.deleteCard, bind.
  rewrite Card_findByPk_run.
  unfold card_with_key in *. tick_simpl.
  rewrite Hc; cbn [fmap option_fmap option_map]. rewrite hydrate_without_include.
  unfold instance_destroy, connection_of, bind, emit, modify, ret, res_status_send, emit.
  unfold commit, bind, emit, modify, leaves, without_key. world_simpl.
  repeat apply conj; try done. by rewrite <- !app_assoc.
Qed.

(** ** Updating a card that is there *)

Lemma cast_or_keep_run `{SqlDialect} (t : DataType) (v : JsVal) (kept : DbVal) (w : World) :
  cast_or_keep t v kept w
  = match changed_value t v kept with
    | Some d => (Ok d, w)
    | None => (Throw ValidationError, w)
    end.
Proof.
  unfold cast_or_keep, changed_value, cast, ret, throw.
  destruct v; try done; by destruct (sql_cast _ _).
Qed.

Lemma instance_update_run `{SqlDialect} (inst : Instance) (ch : CardChanges)
    (t : Transaction) (w : World) :
  let k := cardId (dataValues inst) in
  let logged := set_trace (trace w ++ [EvUpdate k ch]) w in
  instance_update inst ch (options_with t) w
  = match changed_row ch (dataValues inst) with
    | Some row =>
        (Ok {| dataValues := row; userCard_of := userCard_of inst |},
         set_cards (replace_row k row (cards w)) logged)
    | None => (Throw ValidationError, logged)
    end.
Proof.
  intros k logged. subst k logged.
  unfold instance_update, changed_row, connection_of, bind, emit, modify, ret.
  world_simpl. rewrite !cast_or_keep_run.
  destruct (changed_value INTEGER (ch_userId ch) _); simpl; [| done].
  rewrite !cast_or_keep_run.
  destruct (changed_value STRING (ch_title ch) _); simpl; [| done].
  rewrite !cast_or_keep_run.
  destruct (changed_value STRING (ch_content ch) _); simpl; [| done].
  rewrite !cast_or_keep_run.
  destruct (changed_value STRING (ch_status ch) _); simpl; [| done].
  rewrite !cast_or_keep_run.
  destruct (changed_value STRING (ch_updatedAt ch) _); simpl; done.
Qed.

Lemma changed_row_keeps `{SqlDialect} (ch : CardChanges) (old row : Card) :
  changed_row ch old = Some row ->
  cardId row = cardId old
  /\ createdAt row = createdAt old
  /\ changed_value INTEGER (ch_userId ch) (userId old) = Some (userId row)
  /\ changed_value STRING (ch_title ch) (title old) = Some (title row)
  /\ changed_value STRING (ch_content ch) (content old) = Some (content row)
  /\ changed_value STRING (ch_status ch) (status old) = Some (status row)
  /\ changed_value STRING (ch_updatedAt ch) (updatedAt old) = Some (updatedAt row).
Proof.
  unfold changed_row.
  destruct (changed_value INTEGER (ch_userId ch) _); simpl; [| done].
  destruct (changed_value STRING (ch_title ch) _); simpl; [| done].
  destruct (changed_value STRING (ch_content ch) _); simpl; [| done].
  destruct (changed_value STRING (ch_status ch) _); simpl; [| done].
  destruct (changed_value STRING (ch_updatedAt ch) _); simpl; [| done].
  by intros [= <-].
Qed.

Lemma changed_value_field `{SqlDialect} (t : DataType) (v : JsVal) (kept d : DbVal) :
  changed_value t v kept = Some d ->
  if decide (v = JUndefined) then d = kept else sql_cast t v = Some d.
Proof. unfold changed_value. destruct v; case_decide; try done; congruence. Qed.

(** A value that is given and that the database rejects makes the update
    fail, whatever the other values are. *)
Lemma changed_row_rejected `{SqlDialect} `{DateHelpers}
    (req : CardController.Request) (w : World) (old : Card) (k : string) (t : DataType) :
  (k, t) ∈ updatable ->
  prop (CardController.body req) k <> JUndefined ->
  sql_cast t (prop (CardController.body req) k) = None ->
  changed_row (updateCard_changes req w) old = None.
Proof.
  intros Hk Hgiven Hrej.
  assert (Hv : changed_value t (prop (CardController.body req) k)
                 (default DNull (get_field k old)) = None).
  { unfold changed_value. by destruct (prop (CardController.body req) k). }
  unfold changed_row, updateCard_changes;
    cbn [ch_userId ch_title ch_content ch_status ch_updatedAt].
  unfold updatable in Hk. rewrite !elem_of_cons in Hk. rewrite elem_of_nil in Hk.
  destruct Hk as [[= -> ->] | [[= -> ->] | [[= -> ->] | [[= -> ->] | []]]]];
    cbn [get_field default String.eqb Ascii.eqb Bool.eqb] in Hv; simpl in Hv; rewrite Hv;
    repeat match goal with
    | |- context [changed_value ?t' ?v ?d] => destruct (changed_value t' v d); simpl
    end; done.
Qed.

(** What the update endpoint does when no card has the key. *)
Lemma updateCard_absent `{SqlDialect} `{DateHelpers}
    (req : CardController.Request) (w : World) :
  let id := prop (CardController.params req) "id" in
  card_with_key id w = None ->
  leaves (run (CardController.updateCard req) w) w
    ([EvTransaction] ++ lookup_events id [userCard]
     ++ [ EvLog "CARDS" "ALTERAÇÃO DE CARD" "warning";
          EvSend 404 (error_body 404 "warning" "Card não encontrado" (reading 1 w));
          EvCommit ])
    (cards w).
Proof.
  intros id Hno.
  unfold run, CardController.updateCard, CardController.try_with_transaction.
  unfold sequelize_transaction, try_catch, bind, emit, modify, ret. world_simpl.
  rewrite new_Date_run. fold id.
  unfold CardPersistence.updateCard, bind.
  rewrite Card_findByPk_run.
  unfold card_with_key in *. tick_simpl.
  rewrite Hno; cbn [fmap option_fmap option_map]. unfold ret.
  rewrite sendErrorMessage_run.
  unfold commit, bind, emit, modify, leaves, error_body. tick_simpl.
  repeat apply conj; try done. by rewrite <- !app_assoc.
Qed.

(** What it does when a card has the key and the database takes the
    values. *)
Lemma updateCard_found `{SqlDialect} `{DateHelpers}
    (req : CardController.Request) (w : World) (c row : Card) :
  let id := prop (CardController.params req) "id" in
  let ch := updateCard_changes req w in
  card_with_key id w = Some c ->
  changed_row ch c = Some row ->
  leaves (run (CardController.updateCard req) w) w
    ([EvTransaction] ++ lookup_events id [userCard]
     ++ [ EvUpdate (cardId c) ch;
          EvSend 200 (BInstance {| dataValues := row;
                                   userCard_of := Included (owner (users w) c) |});
          EvCommit ])
    (replace_row (cardId c) row (cards w)).
Proof.
  intros id ch Hc Hrow.
  unfold run, CardController.updateCard, CardController.try_with_transaction.
  unfold sequelize_transaction, try_catch, bind, emit, modify, ret. world_simpl.
  rewrite new_Date_run. tick_simpl. fold id.
  change (clock w) with (reading 0 w). fold (updateCard_changes req w). fold ch.
  unfold CardPersistence.updateCard, bind.
  rewrite Card_findByPk_run.
  unfold card_with_key in *. tick_simpl.
  rewrite Hc; cbn [fmap option_fmap option_map]. rewrite hydrate_with_owner.
  rewrite instance_update_run. cbn [dataValues userCard_of]. rewrite Hrow.
  unfold ret, res_status_send, commit, bind, emit, modify, leaves. tick_simpl.
  repeat apply conj; try done. by rewrite <- !app_assoc.
Qed.

(** What it does when a card has the key and the database rejects a
    value. *)
Lemma updateCard_rejected `{SqlDialect} `{DateHelpers}
    (req : CardController.Request) (w : World) (c : Card) :
  let id := prop (CardController.params req) "id" in
  let ch := updateCard_changes req w in
  card_with_key id w = Some c ->
  changed_row ch c = None ->
  leaves (run (CardController.updateCard req) w) w
    ([EvTransaction] ++ lookup_events id [userCard]
     ++ [ EvUpdate (cardId c) ch; EvRollback;
          EvLog "CARDS" "ALTERAÇÃO DE CARD" "error";
          EvSend 500 (error_body 500 "error"
                        "Falha ao alterar o cadastro do card, tente novamente mais tarde"
                        (reading 1 w)) ])
    (cards w).
Proof.
  intros id ch Hc Hrow.
  unfold run, CardController.updateCard, CardController.try_with_transaction.
  unfold sequelize_transaction, try_catch, bind, emit, modify, ret. world_simpl.
  rewrite new_Date_run. tick_simpl. fold id.
  change (clock w) with (reading 0 w). fold (updateCard_changes req w). fold ch.
  unfold CardPersistence.updateCard, bind.
  rewrite Card_findByPk_run.
  unfold card_with_key in *. tick_simpl.
  rewrite Hc; cbn [fmap option_fmap option_map]. rewrite hydrate_with_owner.
  rewrite instance_update_run. cbn [dataValues userCard_of]. rewrite Hrow.
  unfold CardController.rollback_if_open, rollback, bind, emit, modify. tick_simpl.
  rewrite sendErrorMessage_run. unfold leaves, error_body. tick_simpl.
  repeat apply conj; try done. by rewrite <- !app_assoc.
Qed.

(** ** Deleting every card *)

Lemma deleteAllCards_run `{SqlDialect} `{DateHelpers}
    (req : CardController.Request) (w : World) :
  leaves (run (CardController.deleteAllCards req) w) w
    [ EvTransaction; EvDestroyAll; EvRollback;
      EvLog "CARDS" "DELEÇÃO DE CARDS" "error";
      EvSend 500 (error_body 500 "error"
                    "Falha ao deletar o cadastro de todos cards, tente novamente mais tarde"
                    (clock w)) ]
    (cards w).
Proof.
  unfold run, CardController.deleteAllCards, CardController.try_with_transaction.
  unfold sequelize_transaction, try_catch, bind, emit, modify, ret. world_simpl.
  unfold CardPersistence.deleteAllCards, Card_destroy_all, connection_of.
  unfold bind, emit, throw. world_simpl.
  unfold CardController.rollback_if_open, rollback, bind, emit, modify. world_simpl.
  rewrite sendErrorMessage_run. unfold leaves, error_body. tick_simpl.
  repeat apply conj; try done. by rewrite <- !app_assoc.
Qed.

(** ** Reading *)

Lemma findCardById_absent `{SqlDialect} `{DateHelpers}
    (req : CardController.Request) (w : World) :
  let id := prop (CardController.params req) "id" in
  card_with_key id w = None ->
  only_adds (run (CardController.findCardById req) w) w
    (lookup_events id [userCard]
     ++ [ EvLog "CARDS" "PESQUISA DE CARD POR ID" "error";
          EvSend 500 (error_body 500 "error" "Card não encontrado" (clock w)) ]).
Proof.
  intros id Hno.
  unfold run, CardController.findCardById, try_catch, bind. fold id.
  rewrite findCardById_run, Hno; cbn [fmap option_fmap option_map].
  rewrite sendErrorMessage_run. unfold only_adds, error_body. tick_simpl.
  repeat apply conj; try done. by rewrite <- !app_assoc.
Qed.

Lemma findCardById_found `{SqlDialect} `{DateHelpers}
    (req : CardController.Request) (w : World) (c : Card) :
  let id := prop (CardController.params req) "id" in
  card_with_key id w = Some c ->
  only_adds (run (CardController.findCardById req) w) w
    (lookup_events id [userCard]
     ++ [ EvSend 200 (BInstance (hydrate [userCard] (users w) c)) ]).
Proof.
  intros id Hc.
  unfold run, CardController.findCardById, try_catch, bind. fold id.
  rewrite findCardById_run, Hc; cbn [fmap option_fmap option_map].
  unfold res_status_send, emit, only_adds. world_simpl.
  repeat apply conj; try done. by rewrite <- !app_assoc.
Qed.

Lemma searchCards_only_adds `{SqlDialect} `{DateHelpers}
    (req : CardController.Request) (w : World) :
  let userId := prop (CardController.query req) "userId" in
  only_adds (run (CardController.searchCards req) w) w
    [ EvFindAll (CardPersistence.searchCards_query userId (JStr "TO-DO"));
      EvFindAll (CardPersistence.searchCards_query userId (JStr "DOING"));
      EvFindAll (CardPersistence.searchCards_query userId (JStr "DONE"));
      EvSend 200 (BBuckets (bucket userId "TO-DO" w) (bucket userId "DOING" w)
                           (bucket userId "DONE" w)) ].
Proof.
  intros userId. unfold run.
  pose proof (searchCards_controller_run req w) as E; simpl in E. rewrite E.
  by repeat apply conj.
Qed.

Lemma countCards_only_adds `{SqlDialect} `{DateHelpers}
    (req : CardController.Request) (w : World) :
  let userId := prop (CardController.query req) "userId" in
  only_adds (run (CardController.countCards req) w) w
    [ EvFindAllGrouped (CardPersistence.countCardsByStatus_query userId);
      EvSend 200 (BCounts (CardController.cardsTotal_of
                             (grouped_count (counted_cards userId w)))) ].
Proof.
  intros userId. unfold run.
  pose proof (countCards_run req w) as E; simpl in E. rewrite E.
  by repeat apply conj.
Qed.

(** ** Creating, once more *)

Lemma createCard_frame `{SqlDialect} `{DateHelpers}
    (req : CardController.Request) (w : World) :
  users (run (CardController.createCard req) w) = users w
  /\ snapshot (run (CardController.createCard req) w) = None.
Proof.
  unfold run, CardController.createCard, CardController.try_with_transaction.
  unfold sequelize_transaction, try_catch, bind, emit, modify, ret. world_simpl.
  rewrite !new_Date_run. tick_simpl.
  unfold CardPersistence.createCard, bind.
  match goal with |- context [Card_create ?v (options_with ?t) ?w3] =>
    destruct (Card_create_cases v t w3) as [(row & E & _) | (e & E)]; rewrite E; clear E
  end.
  - unfold ret, commit, res_status_send, bind, emit, modify. by tick_simpl.
  - unfold CardController.rollback_if_open, rollback, bind, emit, modify.
    tick_simpl. rewrite sendErrorMessage_run. by tick_simpl.
Qed.

(** ** What the traces say *)

Lemma leaves_seen {A} (h : M A) (w : World) (es : list Event) (cs : list Card) :
  leaves (run h w) w es cs -> emitted h w = es /\ responses h w = sends es.
Proof.
  intros (T & _). split; [by apply emitted_app | by apply responses_app].
Qed.

Lemma only_adds_seen {A} (h : M A) (w : World) (es : list Event) :
  only_adds (run h w) w es -> emitted h w = es /\ responses h w = sends es.
Proof.
  intros (T & _). split; [by apply emitted_app | by apply responses_app].
Qed.

Lemma sends_lookup_events (id : JsVal) (include : list Association) (es : list Event) :
  sends (lookup_events id include ++ es) = sends es.
Proof. by destruct id. Qed.

Lemma transaction_lookup_events (id : JsVal) (include : list Association)
    (es : list Event) :
  transaction_events (lookup_events id include ++ es) = transaction_events es.
Proof. by destruct id. Qed.

Lemma last_lookup_events (pre : list Event) (id : JsVal) (include : list Association)
    (e : Event) (es : list Event) :
  last (pre ++ lookup_events id include ++ e :: es) = last (e :: es).
Proof. by rewrite app_assoc, last_app_cons. Qed.

Lemma card_with_key_elem `{SqlDialect} (id : JsVal) (w : World) (c : Card) :
  card_with_key id w = Some c -> c ∈ cards w /\ sql_eq (DInt (cardId c)) id = true.
Proof.
  unfold card_with_key. intros Hc.
  assert (F : List.find (fun c => sql_eq (DInt (cardId c)) id) (cards w) = Some c)
    by (by destruct id).
  apply find_some in F as [Hin Heq]. split; [by apply list_elem_of_In | done].
Qed.

Lemma elem_of_without_key (k : Z) (cs : list Card) (c : Card) :
  c ∈ without_key k cs <-> c ∈ cs /\ cardId c <> k.
Proof.
  unfold without_key. rewrite !list_elem_of_In, filter_In, negb_true_iff, Z.eqb_neq.
  done.
Qed.

(** ** The delete endpoint *)

(** X1.  When no card has the key, the delete endpoint answers 404 with the
    message "Card não encontrado"; the table, the users and the counter are
    what they were, and the transaction it opened is committed last. *)
Theorem delete_not_found `{SqlDialect} `{DateHelpers}
    (req : CardController.Request) (w : World) :
  let id := prop (CardController.params req) "id" in
  let after := run (CardController.deleteCard req) w in
  (forall c, c ∈ cards w -> sql_eq (DInt (cardId c)) id = false) ->
  fst (CardPersistence.deleteCard id (options_with TransactionHandle) w) = Ok None
  /\ responses (CardController.deleteCard req) w
     = [(404, error_body 404 "warning" "Card não encontrado" (clock w))]
  /\ last (emitted (CardController.deleteCard req) w) = Some EvCommit
  /\ transaction_events (emitted (CardController.deleteCard req) w)
     = [EvTransaction; EvCommit]
  /\ cards after = cards w
  /\ users after = users w
  /\ next_id after = next_id w
  /\ snapshot after = None.
Proof.
  intros id after Hno. apply card_with_key_none in Hno.
  pose proof (deleteCard_absent req w Hno) as L.
  destruct (leaves_seen _ _ _ _ L) as [-> ->].
  destruct L as (_ & Hc & Hu & Hn & _ & Hs).
  repeat apply conj; try done.
  - unfold CardPersistence.deleteCard, bind. rewrite Card_findByPk_run. fold id.
    by rewrite Hno.
  - cbn [app sends omap list_omap]. by rewrite sends_lookup_events.
  - by rewrite last_lookup_events.
  - cbn [app transaction_events List.filter]. by rewrite transaction_lookup_events.
Qed.

(** X2.  When a card has the key, the delete endpoint answers 200 with the
    record as it was, without its owner; the rows of that key are gone and
    every other row is kept, in order; users and counter are what they were,
    and the transaction is committed last. *)
Theorem delete_found `{SqlDialect} `{DateHelpers}
    (req : CardController.Request) (w : World) (c : Card) :
  let id := prop (CardController.params req) "id" in
  let after := run (CardController.deleteCard req) w in
  card_with_key id w = Some c ->
  responses (CardController.deleteCard req) w
  = [(200, BInstance {| dataValues := c; userCard_of := NotIncluded |})]
  /\ cards after = without_key (cardId c) (cards w)
  /\ (cardId c ∉ cardId <$> cards after)
  /\ (forall c', c' ∈ cards after <-> c' ∈ cards w /\ cardId c' <> cardId c)
  /\ last (emitted (CardController.deleteCard req) w) = Some EvCommit
  /\ users after = users w
  /\ next_id after = next_id w
  /\ issued after = issued w
  /\ snapshot after = None.
Proof.
  intros id after Hc.
  pose proof (deleteCard_found req w c Hc) as L.
  destruct (leaves_seen _ _ _ _ L) as [-> ->].
  destruct L as (_ & Hcs & Hu & Hn & Hi & Hs). fold after in Hcs, Hu, Hn, Hi, Hs.
  repeat apply conj; try done.
  - cbn [app sends omap list_omap]. by rewrite sends_lookup_events.
  - rewrite Hcs. intros Hin. apply list_elem_of_fmap in Hin as (c' & E & Hc').
    apply elem_of_without_key in Hc' as [_ Hne]. congruence.
  - intros c'. rewrite Hcs. apply elem_of_without_key.
  - by rewrite last_lookup_events.
Qed.

Lemma deleteCard_found_clock `{SqlDialect} `{DateHelpers}
    (req : CardController.Request) (w : World) (c : Card) :
  card_with_key (prop (CardController.params req) "id") w = Some c ->
  clock (run (CardController.deleteCard req) w) = clock w.
Proof.
  intros Hc.
  unfold run, CardController.deleteCard, CardController.try_with_transaction.
  unfold sequelize_transaction, try_catch, bind, emit, modify, ret. world_simpl.
  unfold CardPersistence.deleteCard, bind.
  rewrite Card_findByPk_run.
  unfold card_with_key in *. tick_simpl.
  rewrite Hc; cbn [fmap option_fmap option_map].
  unfold instance_destroy, connection_of, bind, emit, modify, ret, res_status_send, emit.
  unfold commit, bind, emit, modify. by world_simpl.
Qed.

(** X3.  Deleting and looking up: where two keys that compare equal to one
    value are one key, a card that the delete endpoint found by a key is not
    found by that key afterwards, and the find endpoint says so. *)
Theorem delete_then_find `{SqlDialect} `{DateHelpers}
    (req : CardController.Request) (w : World) (c : Card) :
  let id := prop (CardController.params req) "id" in
  let after := run (CardController.deleteCard req) w in
  keys_distinguished ->
  card_with_key id w = Some c ->
  card_with_key id after = None
  /\ responses (CardController.findCardById req) after
     = [(500, error_body 500 "error" "Card não encontrado" (clock w))].
Proof.
  intros id after Hkeys Hc.
  destruct (deleteCard_found req w c Hc) as (_ & Hcs & _). fold after in Hcs.
  destruct (card_with_key_elem _ _ _ Hc) as [_ Heq].
  assert (Hno : card_with_key id after = None).
  { apply card_with_key_none. intros c' Hin. rewrite Hcs in Hin.
    apply elem_of_without_key in Hin as [_ Hne].
    destruct (sql_eq (DInt (cardId c')) id) eqn:E; [| done].
    destruct Hne. by apply (Hkeys _ _ id). }
  split; [done |].
  destruct (only_adds_seen _ _ _ (findCardById_absent req after Hno)) as [_ ->].
  rewrite sends_lookup_events. subst after.
  by rewrite (deleteCard_found_clock req w c Hc).
Qed.

(** ** The delete-all endpoint *)

(** X4.  The delete-all endpoint deletes nothing.  The controller hands
    [deleteAllCards] the object [{ transaction }], and [deleteAllCards] puts
    what it is given where [Card.destroy] expects the handle itself; the
    call fails before anything reaches the database.  The endpoint rolls
    back and answers 500 with the failure message of the deletion; the
    table, the users, the counter and the keys ever stored are what they
    were. *)
Theorem delete_all_deletes_nothing `{SqlDialect} `{DateHelpers}
    (req : CardController.Request) (w : World) :
  let after := run (CardController.deleteAllCards req) w in
  let answer :=
    error_body 500 "error"
      "Falha ao deletar o cadastro de todos cards, tente novamente mais tarde" (clock w) in
  (forall t : Transaction,
     fst (CardPersistence.deleteAllCards (options_with t) w) = Throw TypeError
     /\ cards (run (CardPersistence.deleteAllCards (options_with t)) w) = cards w)
  /\ emitted (CardController.deleteAllCards req) w
     = [ EvTransaction; EvDestroyAll; EvRollback;
         EvLog "CARDS" "DELEÇÃO DE CARDS" "error"; EvSend 500 answer ]
  /\ responses (CardController.deleteAllCards req) w = [(500, answer)]
  /\ cards after = cards w
  /\ users after = users w
  /\ next_id after = next_id w
  /\ issued after = issued w
  /\ snapshot after = None.
Proof.
  intros after answer.
  pose proof (deleteAllCards_run req w) as L.
  destruct (leaves_seen _ _ _ _ L) as [-> ->].
  destruct L as (_ & Hcs & Hu & Hn & Hi & Hs).
  by repeat apply conj.
Qed.

(** X5.  After the delete-all endpoint every card is still there to be
    counted, searched and found: the count and the search endpoints answer
    what they answered before, and a card that a key found is what the find
    endpoint answers for that key. *)
Theorem delete_all_then_read `{SqlDialect} `{DateHelpers}
    (req counting searching finding : CardController.Request) (w : World) :
  let after := run (CardController.deleteAllCards req) w in
  responses (CardController.countCards counting) after
  = responses (CardController.countCards counting) w
  /\ responses (CardController.searchCards searching) after
     = responses (CardController.searchCards searching) w
  /\ (forall c, card_with_key (prop (CardController.params finding) "id") w = Some c ->
        responses (CardController.findCardById finding) after
        = [(200, BInstance (hydrate [userCard] (users w) c))]).
Proof.
  intros after.
  destruct (deleteAllCards_run req w) as (_ & Hcs & Hu & _). fold after in Hcs, Hu.
  repeat apply conj.
  - destruct (only_adds_seen _ _ _ (countCards_only_adds counting after)) as [_ ->].
    destruct (only_adds_seen _ _ _ (countCards_only_adds counting w)) as [_ ->].
    unfold counted_cards. by rewrite Hcs.
  - destruct (only_adds_seen _ _ _ (searchCards_only_adds searching after)) as [_ ->].
    destruct (only_adds_seen _ _ _ (searchCards_only_adds searching w)) as [_ ->].
    unfold bucket. by rewrite Hcs, Hu.
  - intros c Hc.
    assert (Hc' : card_with_key (prop (CardController.params finding) "id") after = Some c)
      by (by rewrite (card_with_key_cards _ w after Hcs)).
    destruct (only_adds_seen _ _ _ (findCardById_found finding after c Hc')) as [_ ->].
    rewrite sends_lookup_events. cbn [sends omap list_omap]. by rewrite Hu.
Qed.

(** ** The update endpoint *)

Lemma replace_row_keys (k : Z) (row : Card) (cs : list Card) :
  cardId row = k -> cardId <$> replace_row k row cs = cardId <$> cs.
Proof.
  intros Hk. unfold replace_row. rewrite <- list_fmap_compose.
  apply list_fmap_ext. intros _ c _. simpl.
  destruct (Z.eqb_spec (cardId c) k); congruence.
Qed.

Lemma replace_row_others (k : Z) (row : Card) (cs : list Card) (c : Card) :
  c ∈ cs -> cardId c <> k -> c ∈ replace_row k row cs.
Proof.
  intros Hin Hne. unfold replace_row. apply list_elem_of_fmap.
  exists c. split; [| done]. by rewrite (proj2 (Z.eqb_neq _ _) Hne).
Qed.

Lemma key_determines_row (cs : list Card) (c c' : Card) :
  NoDup (cardId <$> cs) -> c ∈ cs -> c' ∈ cs -> cardId c = cardId c' -> c = c'.
Proof.
  induction cs as [| x cs IH]; intros Hnd Hc Hc' E; [by apply elem_of_nil in Hc |].
  rewrite fmap_cons in Hnd. apply NoDup_cons in Hnd as [Hx Hnd].
  apply elem_of_cons in Hc as [-> | Hc], Hc' as [-> | Hc']; [done | | | by apply IH].
  - destruct Hx. rewrite E. by apply list_elem_of_fmap_2.
  - destruct Hx. rewrite <- E. by apply list_elem_of_fmap_2.
Qed.

Lemma replace_row_created (k : Z) (row c : Card) (cs : list Card) :
  NoDup (cardId <$> cs) -> c ∈ cs -> cardId c = k -> createdAt row = createdAt c ->
  createdAt <$> replace_row k row cs = createdAt <$> cs.
Proof.
  intros Hnd Hc Hk Hcre. unfold replace_row. rewrite <- list_fmap_compose.
  apply list_fmap_ext. intros i c' Hi. simpl.
  destruct (Z.eqb_spec (cardId c') k) as [E | _]; [| done].
  rewrite Hcre. f_equal. apply (key_determines_row cs); try done; [| congruence].
  by apply list_elem_of_lookup_2 in Hi.
Qed.

(** X6.  When a card has the key and the database takes the values that
    the body gives, the update endpoint answers 200 with the new row.  The
    row keeps the key and [createdAt] of the old one and takes [updatedAt]
    from the clock; a field that the body gives holds what the database
    made of the value, and a field that the body leaves out holds what it
    held.  With the row comes the owner the card had before the update.  The
    rows of that key are replaced, every other row is kept and the table
    has as many rows as before; the transaction is committed last. *)
Theorem update_found `{SqlDialect} `{DateHelpers}
    (req : CardController.Request) (w : World) (c row : Card) :
  let id := prop (CardController.params req) "id" in
  let after := run (CardController.updateCard req) w in
  card_with_key id w = Some c ->
  changed_row (updateCard_changes req w) c = Some row ->
  responses (CardController.updateCard req) w
  = [(200, BInstance {| dataValues := row;
                        userCard_of := Included (owner (users w) c) |})]
  /\ cardId row = cardId c
  /\ createdAt row = createdAt c
  /\ sql_cast STRING (JStr (formatDatabaseDatetime (clock w))) = Some (updatedAt row)
  /\ Forall (fun '(k, t) =>
               let v := prop (CardController.body req) k in
               if decide (v = JUndefined) then get_field k row = get_field k c
               else sql_cast t v = get_field k row) updatable
  /\ cards after = replace_row (cardId c) row (cards w)
  /\ row ∈ cards after
  /\ (forall c', c' ∈ cards w -> cardId c' <> cardId c -> c' ∈ cards after)
  /\ length (cards after) = length (cards w)
  /\ last (emitted (CardController.updateCard req) w) = Some EvCommit
  /\ users after = users w
  /\ next_id after = next_id w
  /\ snapshot after = None.
Proof.
  intros id after Hc Hrow.
  pose proof (updateCard_found req w c row Hc Hrow) as L.
  destruct (leaves_seen _ _ _ _ L) as [-> ->].
  destruct L as (_ & Hcs & Hu & Hn & Hi & Hs). fold after in Hcs, Hu, Hn, Hi, Hs.
  destruct (changed_row_keeps _ _ _ Hrow) as (Hk & Hcre & Huid & Httl & Hcnt & Hsts & Hupd).
  destruct (card_with_key_elem _ _ _ Hc) as [Hin _].
  repeat apply conj; try done.
  - cbn [app sends omap list_omap]. by rewrite sends_lookup_events.
  - apply changed_value_field in Huid, Httl, Hcnt, Hsts.
    cbn [updateCard_changes ch_userId ch_title ch_content ch_status] in Huid, Httl, Hcnt, Hsts.
    apply Forall_forall. intros [k t] Hin'. unfold updatable in Hin'.
    rewrite !elem_of_cons, elem_of_nil in Hin'.
    destruct Hin' as [[= -> ->] | [[= -> ->] | [[= -> ->] | [[= -> ->] | []]]]]; cbv zeta;
      unfold get_field; simpl; repeat case_decide; congruence.
  - rewrite Hcs. unfold replace_row. apply list_elem_of_fmap.
    exists c. split; [| done]. by rewrite Z.eqb_refl.
  - intros c' Hc' Hne. rewrite Hcs. by apply replace_row_others.
  - rewrite Hcs. unfold replace_row. apply length_fmap.
  - by rewrite last_lookup_events.
Qed.

(** X7.  When a card has the key and the database rejects a value that the
    body gives for one of its fields, the update endpoint rolls the
    transaction back and answers 500 with the failure message of the
    update; the table is what it was and nothing is committed. *)
Theorem update_rejected `{SqlDialect} `{DateHelpers}
    (req : CardController.Request) (w : World) (c : Card) (k : string) (t : DataType) :
  let id := prop (CardController.params req) "id" in
  let after := run (CardController.updateCard req) w in
  card_with_key id w = Some c ->
  (k, t) ∈ updatable ->
  prop (CardController.body req) k <> JUndefined ->
  sql_cast t (prop (CardController.body req) k) = None ->
  responses (CardController.updateCard req) w
  = [(500, error_body 500 "error"
             "Falha ao alterar o cadastro do card, tente novamente mais tarde"
             (reading 1 w))]
  /\ transaction_events (emitted (CardController.updateCard req) w)
     = [EvTransaction; EvRollback]
  /\ cards after = cards w
  /\ users after = users w
  /\ next_id after = next_id w
  /\ snapshot after = None.
Proof.
  intros id after Hc Hk Hgiven Hrej.
  pose proof (changed_row_rejected req w c k t Hk Hgiven Hrej) as Hrow.
  pose proof (updateCard_rejected req w c Hc Hrow) as L.
  destruct (leaves_seen _ _ _ _ L) as [-> ->].
  destruct L as (_ & Hcs & Hu & Hn & Hi & Hs).
  repeat apply conj; try done.
  - cbn [app sends omap list_omap]. by rewrite sends_lookup_events.
  - cbn [app transaction_events List.filter]. by rewrite transaction_lookup_events.
Qed.

(** X8.  Whatever the request and whatever comes of it, the update endpoint
    adds no row, removes none and changes no key: the keys of the table are
    the same, in the same order; where keys are unique no [createdAt]
    changes either.  Users, counter and stored keys are what they were and
    no transaction is left open. *)
Theorem update_never_rekeys `{SqlDialect} `{DateHelpers}
    (req : CardController.Request) (w : World) :
  let after := run (CardController.updateCard req) w in
  cardId <$> cards after = cardId <$> cards w
  /\ length (cards after) = length (cards w)
  /\ (NoDup (cardId <$> cards w) -> createdAt <$> cards after = createdAt <$> cards w)
  /\ users after = users w
  /\ next_id after = next_id w
  /\ issued after = issued w
  /\ snapshot after = None.
Proof.
  intros after.
  assert (Hcases :
    exists es cs, leaves after w es cs
      /\ (cs = cards w
          \/ exists c row, c ∈ cards w /\ cardId row = cardId c
                           /\ createdAt row = createdAt c
                           /\ cs = replace_row (cardId c) row (cards w))).
  { destruct (card_with_key (prop (CardController.params req) "id") w) as [c |] eqn:Hc.
    - destruct (changed_row (updateCard_changes req w) c) as [row |] eqn:Hrow.
      + eexists _, _. split; [exact (updateCard_found req w c row Hc Hrow) |].
        right. exists c, row.
        destruct (changed_row_keeps _ _ _ Hrow) as (Hk & Hcre & _).
        by destruct (card_with_key_elem _ _ _ Hc) as [Hin _].
      + eexists _, _. split; [exact (updateCard_rejected req w c Hc Hrow) | by left].
    - eexists _, _. split; [exact (updateCard_absent req w Hc) | by left]. }
  destruct Hcases as (es & cs & (_ & Hcs & Hu & Hn & Hi & Hs) & Hshape).
  assert (Hkeys : cardId <$> cards after = cardId <$> cards w).
  { rewrite Hcs. destruct Hshape as [-> | (c & row & _ & Hk & _ & ->)]; [done |].
    by apply replace_row_keys. }
  repeat apply conj; try done.
  - by rewrite <- (length_fmap cardId), Hkeys, length_fmap.
  - intros Hnd. rewrite Hcs.
    destruct Hshape as [-> | (c & row & Hin & Hk & Hcre & ->)]; [done |].
    by apply (replace_row_created _ row c).
Qed.

(** ** The creation endpoint *)

(** X9.  When the body brings a key that a row of the table already has,
    nothing is stored: the creation endpoint rolls the transaction back and
    answers 500 with the failure message of the creation; table, counter and
    stored keys are what they were. *)
Theorem create_duplicate_key `{SqlDialect} `{DateHelpers}
    (req : CardController.Request) (w : World) (k : Z) :
  let given := prop (CardController.body req) "cardId" in
  let after := run (CardController.createCard req) w in
  given <> JUndefined ->
  given <> JNull ->
  sql_cast INTEGER given = Some (DInt k) ->
  k ∈ cardId <$> cards w ->
  responses (CardController.createCard req) w
  = [(500, error_body 500 "error"
             "Falha ao gerar o cadastro do card, tente novamente mais tarde"
             (reading 2 w))]
  /\ transaction_events (emitted (CardController.createCard req) w)
     = [EvTransaction; EvRollback]
  /\ cards after = cards w
  /\ next_id after = next_id w
  /\ issued after = issued w.
Proof.
  intros given after Hu Hn Hk Hin.
  destruct (createCard_outcome req w)
    as [(row & _ & _ & _ & _ & Hpk & Hex & _) | (T & Hcs & Hnext & Hiss)].
  - exfalso. apply existsb_key_false in Hex. apply Hex.
    replace (cardId row) with k; [done |].
    unfold new_primary_key in Hpk. cbn [v_cardId createCard_values] in Hpk.
    fold given in Hpk. rewrite Hk in Hpk. destruct given; congruence.
  - rewrite (emitted_app _ _ _ T), (responses_app _ _ _ T).
    by repeat apply conj.
Qed.

(** X10.  However a creation ends, the rows that were in the table are
    still there, unchanged and in their order, with at most the one new row
    among them; the counter does not go back; the users are what they were
    and no transaction is left open. *)
Theorem create_keeps_rows `{SqlDialect} `{DateHelpers}
    (req : CardController.Request) (w : World) :
  let after := run (CardController.createCard req) w in
  (cards after = cards w
   \/ exists row before behind,
        cards w = before ++ behind /\ cards after = before ++ row :: behind)
  /\ (forall c, c ∈ cards w -> c ∈ cards after)
  /\ next_id w <= next_id after
  /\ users after = users w
  /\ snapshot after = None.
Proof.
  intros after.
  destruct (createCard_frame req w) as [Hu Hs].
  destruct (createCard_outcome req w)
    as [(row & _ & Hcs & Hn & _) | (_ & Hcs & Hn & _)]; fold after in Hcs, Hn.
  - destruct (insert_row_split row (cards w)) as (before & behind & E1 & E2).
    repeat apply conj; try done.
    + right. exists row, before, behind. by rewrite Hcs.
    + intros c Hin. rewrite Hcs, insert_row_perm. by apply elem_of_cons; right.
    + lia.
  - repeat apply conj; try done; [by left | by rewrite Hcs | lia].
Qed.

(** A key finds in the table with a new row what it found before, or the
    new row when it found nothing and the new row has it. *)
Lemma find_insert_row (f : Card -> bool) (row : Card) (cs : list Card) :
  List.find f cs = None -> f row = true -> List.find f (insert_row row cs) = Some row.
Proof.
  induction cs as [| c cs IH]; simpl; intros Hno Hrow; [by rewrite Hrow |].
  destruct (f c) eqn:Hc; [done |].
  destruct (cardId row <? cardId c); simpl; [by rewrite Hrow | by rewrite Hc, IH].
Qed.

(** X11.  Creating and looking up: where two keys that compare equal to one
    value are one key, a card that was created is what the find endpoint
    answers, with status 200 and its owner, for every key that compares
    equal to the card's. *)
Theorem create_then_find `{SqlDialect} `{DateHelpers}
    (req finding : CardController.Request) (w : World) (r : Instance) (s : string) :
  let after := run (CardController.createCard req) w in
  keys_distinguished ->
  responses (CardController.createCard req) w = [(201, BInstance r)] ->
  prop (CardController.params finding) "id" = JStr s ->
  sql_eq (DInt (cardId (dataValues r))) (JStr s) = true ->
  responses (CardController.findCardById finding) after
  = [(200, BInstance (hydrate [userCard] (users w) (dataValues r)))].
Proof.
  intros after Hkeys Hresp Hid Heq.
  destruct (createCard_frame req w) as [Hu _]. fold after in Hu.
  destruct (createCard_outcome req w)
    as [(row & T & Hcs & _ & _ & _ & Hex & _) | (T & _)];
    rewrite (responses_app _ _ _ T) in Hresp; simpl in Hresp; [| discriminate].
  injection Hresp as <-. simpl in Heq. fold after in Hcs.
  assert (Hfound : card_with_key (prop (CardController.params finding) "id") after
                   = Some row).
  { rewrite Hid. unfold card_with_key. rewrite Hcs.
    apply find_insert_row; [| done].
    destruct (List.find _ (cards w)) as [c |] eqn:F; [| done].
    apply find_some in F as [Hin Hc]. exfalso.
    apply existsb_key_false in Hex. apply Hex.
    rewrite <- (Hkeys _ _ _ Hc Heq). apply list_elem_of_fmap_2.
    by apply list_elem_of_In. }
  destruct (only_adds_seen _ _ _ (findCardById_found finding after row Hfound)) as [_ ->].
  rewrite sends_lookup_events. simpl. by rewrite Hu.
Qed.

Lemma last_slot (rows : list CountRow) :
  nth 3 (CardController.cardsTotal_of rows) 0 = total rows.
Proof. by rewrite nth_lookup, cardsTotal_of_lookup. Qed.

(** X12.  Creating and counting: after a creation that succeeded, the count
    endpoint asked without a user counts one card more in its last slot than
    it did before. *)
Theorem create_then_count `{SqlDialect} `{DateHelpers}
    (req counting : CardController.Request) (w : World) (r : Instance) :
  let after := run (CardController.createCard req) w in
  let before := CardController.cardsTotal_of (grouped_count (cards w)) in
  let now := CardController.cardsTotal_of (grouped_count (cards after)) in
  responses (CardController.createCard req) w = [(201, BInstance r)] ->
  truthy (prop (CardController.query counting) "userId") = false ->
  responses (CardController.countCards counting) w = [(200, BCounts before)]
  /\ responses (CardController.countCards counting) after = [(200, BCounts now)]
  /\ nth 3 before 0 = Z.of_nat (length (cards w))
  /\ nth 3 now 0 = nth 3 before 0 + 1.
Proof.
  intros after before now Hresp Hall.
  destruct (createCard_outcome req w)
    as [(row & T & Hcs & _) | (T & _)];
    rewrite (responses_app _ _ _ T) in Hresp; simpl in Hresp; [| discriminate].
  fold after in Hcs.
  destruct (only_adds_seen _ _ _ (countCards_only_adds counting w)) as [_ ->].
  destruct (only_adds_seen _ _ _ (countCards_only_adds counting after)) as [_ ->].
  unfold counted_cards. rewrite Hall. subst before now.
  rewrite !last_slot, !total_grouped_count, Hcs, length_insert_row.
  repeat apply conj; try done. lia.
Qed.

(** X13.  Creating and searching: after a creation that succeeded, each
    bucket of the search endpoint holds the cards it held, in their order,
    and among them the new card with its owner when the card passes the
    bucket's filter. *)
Theorem create_then_search `{SqlDialect} `{DateHelpers}
    (req searching : CardController.Request) (w : World) (r : Instance) :
  let after := run (CardController.createCard req) w in
  let userId := prop (CardController.query searching) "userId" in
  let added st :=
    if (if truthy userId then sql_eq (Store.userId (dataValues r)) userId else true)
       && sql_eq (status (dataValues r)) (JStr st)
    then [hydrate [userCard] (users w) (dataValues r)] else [] in
  responses (CardController.createCard req) w = [(201, BInstance r)] ->
  (forall st, exists before behind,
      bucket userId st w = before ++ behind
      /\ bucket userId st after = before ++ added st ++ behind)
  /\ (forall st, bucket userId st after ≡ₚ added st ++ bucket userId st w)
  /\ responses (CardController.searchCards searching) after
     = [(200, BBuckets (bucket userId "TO-DO" after) (bucket userId "DOING" after)
                       (bucket userId "DONE" after))].
Proof.
  intros after userId added Hresp.
  destruct (createCard_frame req w) as [Hu _]. fold after in Hu.
  destruct (createCard_outcome req w)
    as [(row & T & Hcs & _) | (T & _)];
    rewrite (responses_app _ _ _ T) in Hresp; simpl in Hresp; [| discriminate].
  injection Hresp as <-. fold after in Hcs.
  assert (Hbucket : forall st, exists before behind,
            bucket userId st w = before ++ behind
            /\ bucket userId st after = before ++ added st ++ behind).
  { intros st. unfold bucket, added. rewrite Hcs, Hu.
    destruct (insert_row_split row (cards w)) as (before & behind & -> & ->).
    eexists _, _. rewrite !List.filter_app, !fmap_app. split; [reflexivity |].
    f_equal. simpl. by destruct (_ && _). }
  repeat apply conj; [done | |].
  - intros st. destruct (Hbucket st) as (before & behind & -> & ->).
    by rewrite Permutation_app_swap_app.
  - destruct (only_adds_seen _ _ _ (searchCards_only_adds searching after)) as [_ ->].
    done.
Qed.

(** ** The handlers, path by path *)

(** The three ways an update ends, and the two ways a lookup ends. *)
Lemma updateCard_cases `{SqlDialect} `{DateHelpers}
    (req : CardController.Request) (w : World) :
  let id := prop (CardController.params req) "id" in
  let after := run (CardController.updateCard req) w in
  (exists payload,
      leaves after w ([EvTransaction] ++ lookup_events id [userCard]
                      ++ [EvLog "CARDS" "ALTERAÇÃO DE CARD" "warning";
                          EvSend 404 payload; EvCommit]) (cards w))
  \/ (exists k ch record cs,
      leaves after w ([EvTransaction] ++ lookup_events id [userCard]
                      ++ [EvUpdate k ch; EvSend 200 record; EvCommit]) cs)
  \/ (exists k ch payload,
      leaves after w ([EvTransaction] ++ lookup_events id [userCard]
                      ++ [EvUpdate k ch; EvRollback;
                          EvLog "CARDS" "ALTERAÇÃO DE CARD" "error";
                          EvSend 500 payload]) (cards w)).
Proof.
  intros id after.
  destruct (card_with_key id w) as [c |] eqn:Hc.
  - destruct (changed_row (updateCard_changes req w) c) as [row |] eqn:Hrow.
    + right; left. eexists _, _, _, _. exact (updateCard_found req w c row Hc Hrow).
    + right; right. eexists _, _, _. exact (updateCard_rejected req w c Hc Hrow).
  - left. eexists. exact (updateCard_absent req w Hc).
Qed.

Lemma findCardById_cases `{SqlDialect} `{DateHelpers}
    (req : CardController.Request) (w : World) :
  let id := prop (CardController.params req) "id" in
  exists status body,
    only_adds (run (CardController.findCardById req) w) w
      (lookup_events id [userCard] ++ [EvSend status body])
    \/ only_adds (run (CardController.findCardById req) w) w
         (lookup_events id [userCard]
          ++ [EvLog "CARDS" "PESQUISA DE CARD POR ID" "error"; EvSend status body]).
Proof.
  intros id.
  destruct (card_with_key id w) as [c |] eqn:Hc.
  - eexists _, _. left. exact (findCardById_found req w c Hc).
  - eexists _, _. right. exact (findCardById_absent req w Hc).
Qed.

(** Reads what a handler sent and did with its transaction off its events. *)
Ltac read_events L :=
  let Hemitted := fresh in
  let Hsent := fresh in
  destruct (leaves_seen _ _ _ _ L) as [Hemitted Hsent];
  rewrite ?Hemitted, ?Hsent; clear Hemitted Hsent;
  cbn [app sends omap list_omap transaction_events write_events List.filter];
  rewrite ?sends_lookup_events, ?transaction_lookup_events.

(** X14.  The three handlers whose [catch] block the data can reach answer
    exactly once, whichever block runs: the creation (a key that is taken, a
    value that is rejected), the update (no such card, a value that is
    rejected) and the delete-all endpoint (always). *)
Theorem writers_answer_once `{SqlDialect} `{DateHelpers}
    (req : CardController.Request) (w : World) :
  length (responses (CardController.createCard req) w) = 1%nat
  /\ length (responses (CardController.updateCard req) w) = 1%nat
  /\ length (responses (CardController.deleteAllCards req) w) = 1%nat.
Proof.
  repeat apply conj.
  - destruct (createCard_outcome req w) as [(row & T & _) | (T & _)];
      by rewrite (responses_app _ _ _ T).
  - destruct (updateCard_cases req w)
      as [(p & L) | [(k & ch & r & cs & L) | (k & ch & p & L)]];
      by read_events L.
  - pose proof (deleteAllCards_run req w) as L. by read_events L.
Qed.

(** X15.  The creation, the update and the delete-all endpoint each open one
    transaction and close it: the handler commits and does not answer 500,
    or it rolls back, answers 500 and leaves the table as it was; no
    transaction stays open.  The delete-all endpoint always rolls back. *)
Theorem writes_are_committed_or_undone `{SqlDialect} `{DateHelpers}
    (req : CardController.Request) (w : World) :
  (committed_or_undone (CardController.createCard req) w
   /\ snapshot (run (CardController.createCard req) w) = None)
  /\ (committed_or_undone (CardController.updateCard req) w
      /\ snapshot (run (CardController.updateCard req) w) = None)
  /\ (committed_or_undone (CardController.deleteAllCards req) w
      /\ snapshot (run (CardController.deleteAllCards req) w) = None)
  /\ transaction_events (emitted (CardController.deleteAllCards req) w)
     = [EvTransaction; EvRollback].
Proof.
  assert (Hnot : forall s : Z, s <> 500 -> 500 ∉ [s]).
  { intros s Hs Hin. apply list_elem_of_singleton in Hin. congruence. }
  unfold committed_or_undone. repeat apply conj.
  - destruct (createCard_outcome req w) as [(row & T & _) | (T & Hcs & _)];
      rewrite (emitted_app _ _ _ T), (responses_app _ _ _ T); simpl;
      [left | right]; repeat split; try done. by apply Hnot.
  - apply createCard_frame.
  - destruct (updateCard_cases req w)
      as [(p & L) | [(k & ch & r & cs & L) | (k & ch & p & L)]];
      pose proof L as (_ & Hcs & _); read_events L;
      [left | left | right]; repeat split; try done; by apply Hnot.
  - destruct (updateCard_cases req w)
      as [(p & L) | [(k & ch & r & cs & L) | (k & ch & p & L)]]; apply L.
  - pose proof (deleteAllCards_run req w) as L.
    pose proof L as (_ & Hcs & _). read_events L.
    right. by repeat split.
  - apply (deleteAllCards_run req w).
  - pose proof (deleteAllCards_run req w) as L. by read_events L.
Qed.

(** X16.  The three handlers that read (search, find by id, count) leave
    the table, the users, the counter, the stored keys and the transaction
    state as they found them; they open no transaction and issue no
    write. *)
Theorem reads_change_nothing `{SqlDialect} `{DateHelpers}
    (req : CardController.Request) (w : World) :
  Forall (fun h : M unit =>
            cards (run h w) = cards w
            /\ users (run h w) = users w
            /\ next_id (run h w) = next_id w
            /\ issued (run h w) = issued w
            /\ snapshot (run h w) = snapshot w
            /\ transaction_events (emitted h w) = []
            /\ write_events (emitted h w) = [])
    [ CardController.searchCards req; CardController.findCardById req;
      CardController.countCards req ].
Proof.
  assert (Hw : forall id inc es, write_events (lookup_events id inc ++ es) = write_events es)
    by (intros id inc es; by destruct id).
  repeat constructor.
  all: try (pose proof (searchCards_only_adds req w) as L; simpl in L).
  all: try (pose proof (countCards_only_adds req w) as L'; simpl in L').
  1-7: try (destruct L as (T & ? & ? & ? & ? & ?); rewrite ?(emitted_app _ _ _ T); done).
  1-7: destruct (findCardById_cases req w) as (status & body & [F | F]);
       destruct F as (T & ? & ? & ? & ? & ?); rewrite ?(emitted_app _ _ _ T);
       rewrite ?transaction_lookup_events, ?Hw; done.
  all: destruct L' as (T & ? & ? & ? & ? & ?); rewrite ?(emitted_app _ _ _ T); done.
Qed.

(** ** Search by parameters, with a field named more than once *)

(** X17.  Whatever the list of pairs, the filter of [findCardByParameters]
    has, for each field, the value of the last pair that names it and no
    clause for a field no pair names; a card passes the filter exactly when
    it satisfies these last values. *)
Theorem parameters_last_wins `{SqlDialect}
    (ps : list CardPersistence.FieldValue) :
  q_where (CardPersistence.findCardByParameters_query ps) = Some (parameters_where ps)
  /\ (forall k, parameters_where ps !! k = OpAnd_OpEq <$> last_value k ps)
  /\ (forall c, where_holds (parameters_where ps) c = true
                <-> forall k v, last_value k ps = Some v ->
                                clause_holds c k (OpAnd_OpEq v) = true).
Proof.
  assert (Hlast : forall k, parameters_where ps !! k = OpAnd_OpEq <$> last_value k ps).
  { intros k. induction ps as [| p ps IH] using rev_ind; [apply lookup_empty |].
    rewrite parameters_where_snoc, lookup_insert. unfold last_value in *.
    rewrite List.filter_app. simpl.
    case_decide as Hk.
    - rewrite bool_decide_eq_true_2 by done. by rewrite last_snoc.
    - rewrite bool_decide_eq_false_2 by done. by rewrite app_nil_r. }
  repeat apply conj.
  - by rewrite findCardByParameters_query_spec.
  - exact Hlast.
  - intros c. unfold where_holds. rewrite bool_decide_eq_true. unfold map_Forall.
    split.
    + intros Hall k v Hv. apply (Hall k). by rewrite Hlast, Hv.
    + intros Hall k [v] Hk. rewrite Hlast in Hk. apply Hall.
      destruct (last_value k ps); by inversion Hk.
Qed.

(** ** The route table, once more *)

(** X18.  No declared route is hidden by an earlier one: for each of the
    thirteen there is a request that reaches it; and no two of them have the
    same method and path. *)
Theorem every_route_is_reached :
  Forall (fun r => exists url, Router.req_route (Router.method r) url = Some r)
         Router.routes
  /\ NoDup ((fun r => (Router.method r, Router.path r)) <$> Router.routes).
Proof.
  split; [| by_evaluation].
  unfold Router.routes.
  repeat apply Forall_cons_2; [.. | apply Forall_nil_2]; cbn [Router.method].
  - by exists "/cards/".
  - by exists "/cards/1".
  - by exists "/cards/1".
  - by exists "/cards/".
  - by exists "/cards/1".
  - by exists "/cards/tasks/count".
  - by exists "/users/".
  - by exists "/users/1".
  - by exists "/users/tasks/count".
  - by exists "/users/".
  - by exists "/users/1".
  - by exists "/users/login".
  - by exists "/users/recovery".
Qed.

(** ** Keys *)

Lemma without_key_absent (k : Z) (cs : list Card) :
  k ∉ cardId <$> cs -> without_key k cs = cs.
Proof.
  induction cs as [| x cs IH]; intros Hk; [done |].
  rewrite fmap_cons in Hk. apply not_elem_of_cons in Hk as [Hne Hk].
  unfold without_key in *. simpl.
  rewrite (proj2 (Z.eqb_neq (cardId x) k)) by congruence. simpl.
  by rewrite IH.
Qed.

Lemma without_key_one (c : Card) (cs : list Card) :
  NoDup (cardId <$> cs) -> c ∈ cs -> cs ≡ₚ c :: without_key (cardId c) cs.
Proof.
  induction cs as [| x cs IH]; intros Hnd Hc; [by apply elem_of_nil in Hc |].
  rewrite fmap_cons in Hnd. apply NoDup_cons in Hnd as [Hx Hnd].
  unfold without_key in *. simpl.
  apply elem_of_cons in Hc as [-> | Hc].
  - rewrite Z.eqb_refl. simpl.
    fold (without_key (cardId x) cs). by rewrite without_key_absent.
  - assert (Hne : cardId x <> cardId c).
    { intros E. apply Hx. rewrite E. by apply list_elem_of_fmap_2. }
    rewrite (proj2 (Z.eqb_neq _ _) Hne). simpl.
    rewrite (IH Hnd Hc) at 1. apply Permutation_swap.
Qed.

(** X19.  Where keys are unique, the delete endpoint removes exactly the
    card it found: the table before is the table after plus that card, and
    the count endpoint asked without a user counts one card fewer in its
    last slot. *)
Theorem delete_removes_one `{SqlDialect} `{DateHelpers}
    (req counting : CardController.Request) (w : World) (c : Card) :
  let after := run (CardController.deleteCard req) w in
  NoDup (cardId <$> cards w) ->
  card_with_key (prop (CardController.params req) "id") w = Some c ->
  truthy (prop (CardController.query counting) "userId") = false ->
  cards w ≡ₚ c :: cards after
  /\ length (cards w) = S (length (cards after))
  /\ nth 3 (CardController.cardsTotal_of (grouped_count (cards w))) 0
     = nth 3 (CardController.cardsTotal_of (grouped_count (cards after))) 0 + 1
  /\ responses (CardController.countCards counting) after
     = [(200, BCounts (CardController.cardsTotal_of (grouped_count (cards after))))].
Proof.
  intros after Hnd Hc Hall.
  destruct (deleteCard_found req w c Hc) as (_ & Hcs & _). fold after in Hcs.
  destruct (card_with_key_elem _ _ _ Hc) as [Hin _].
  pose proof (without_key_one c (cards w) Hnd Hin) as Hperm. rewrite <- Hcs in Hperm.
  assert (Hlen : length (cards w) = S (length (cards after))).
  { by rewrite Hperm at 1. }
  repeat apply conj; try done.
  - rewrite !last_slot, !total_grouped_count, Hlen. lia.
  - destruct (only_adds_seen _ _ _ (countCards_only_adds counting after)) as [_ ->].
    unfold counted_cards. by rewrite Hall.
Qed.






(** * The code at work

    The properties above, and what they leave out, on the stores of
    [Sample] with its dialect and date helpers. *)

#[local] Existing Instance Sample.dialect.
#[local] Existing Instance Sample.helpers.


Lemma C6_created_record_witness :
  store_ok Sample.board
  /\ responses (CardController.createCard Sample.unkeyed) Sample.board
     = [(201, BInstance (Sample.new_row 4 "1" "1"))]
  /\ cardId (dataValues (Sample.new_row 4 "1" "1")) = next_id Sample.board
  /\ store_ok (run (CardController.createCard Sample.unkeyed) Sample.board).
Proof.
  assert (Hok : store_ok Sample.board) by by_evaluation.
  assert (Hresp : responses (CardController.createCard Sample.unkeyed) Sample.board
                  = [(201, BInstance (Sample.new_row 4 "1" "1"))]) by (vm_compute; reflexivity).
  destruct (C6_created_record Sample.unkeyed Sample.board _ Hok Hresp)
    as (_ & _ & Hkey & _ & _ & _ & _ & Hafter).
  destruct Hkey as [Hkey _]; [left; vm_compute; reflexivity |].
  exact (conj Hok (conj Hresp (conj Hkey Hafter))).
Defined.

(** C6 does not hold as it is written: a body that brings [cardId = -3] on a
    store whose clock moves between the two readings is stored and answered
    with 201, the key being the given one and the two time stamps
    different. *)
Lemma C6_counterexample :
  store_ok Sample.slow_clock
  /\ responses (CardController.createCard Sample.keyed) Sample.slow_clock
     = [(201, BInstance (Sample.new_row (-3) "1" "6"))]
  /\ ~ fresh_record Sample.slow_clock (Sample.new_row (-3) "1" "6")
  /\ createdAt (dataValues (Sample.new_row (-3) "1" "6"))
     <> updatedAt (dataValues (Sample.new_row (-3) "1" "6")).
Proof.
  split; [by_evaluation |].
  split; [vm_compute; reflexivity |].
  split.
  - intros (Hpos & _). simpl in Hpos. lia.
  - simpl. congruence.
Qed.

(** C1 does not hold as it is written: with four distinct status values in
    the store the last slot counts all four cards and the three before it
    only three of them. *)
Lemma C1_counterexample :
  responses (CardController.countCards Sample.count_all) Sample.four_statuses
  = [(200, BCounts [1; 1; 1; 4])]
  /\ ~ count_invariant [1; 1; 1; 4].
Proof.
  split; [vm_compute; reflexivity |].
  unfold count_invariant. simpl. lia.
Qed.

Lemma C1_count_invariant_witness :
  responses (CardController.countCards Sample.count_of_7) Sample.board
  = [(200, BCounts [2; 1; 0; 3])]
  /\ count_invariant [2; 1; 0; 3].
Proof.
  destruct (C1_count_invariant Sample.count_of_7 Sample.board) as (Hsent & _ & Hinv & _).
  - vm_compute. lia.
  - exact (conj Hsent Hinv).
Defined.

Lemma C3_searchCards_filter_witness :
  fst (CardPersistence.searchCards JUndefined (JStr "Todos") Sample.board)
  = Ok (hydrate [userCard] (users Sample.board) <$> cards Sample.board).
Proof.
  destruct (C3_searchCards_filter JUndefined (JStr "Todos") Sample.board)
    as (_ & _ & _ & _ & _ & Hall & _).
  apply Hall; reflexivity.
Defined.

Lemma C4_find_by_id_witness :
  responses (CardController.findCardById Sample.for_card_99) Sample.board
  = [(500, BError {| code := 500; type := "error"; message := "Card não encontrado";
                     date := "1" |})]
  /\ responses (CardController.findCardById Sample.for_card_3) Sample.board
     = [(200, BInstance {| dataValues := Sample.card 3 7 "DONE";
                           userCard_of := Included (Some Sample.ana) |})].
Proof.
  split.
  - destruct (C4_find_by_id Sample.for_card_99 Sample.board) as [Habsent _].
    apply Habsent. apply Forall_forall. by_evaluation.
  - destruct (C4_find_by_id Sample.for_card_3 Sample.board) as [_ Hfound].
    apply (Hfound (Sample.card 3 7 "DONE")). vm_compute. reflexivity.
Defined.

Lemma C5_update_not_found_witness :
  responses (CardController.updateCard Sample.for_card_99) Sample.board
  = [(404, BError {| code := 404; type := "warning"; message := "Card não encontrado";
                     date := "1" |})]
  /\ cards (run (CardController.updateCard Sample.for_card_99) Sample.board)
     = cards Sample.board
  /\ last (emitted (CardController.updateCard Sample.for_card_99) Sample.board)
     = Some EvCommit.
Proof.
  destruct (C5_update_not_found Sample.for_card_99 Sample.board)
    as (Hevents & Hsent & Hcards & _).
  - apply Forall_forall. by_evaluation.
  - split; [exact Hsent |]. split; [exact Hcards |]. by rewrite Hevents.
Defined.

(** C7 on the board: the search by parameters returns the card 3 without
    its owner, which the lookup by key loads; and of two values given for
    one field only the second one filters, so that a card is returned that
    does not satisfy both pairs. *)
Lemma C7_owner_not_loaded :
  fst (CardPersistence.findCardByParameters
         [Sample.by_field "status" (JStr "DONE")] Sample.board)
  = Ok (Some {| dataValues := Sample.card 3 7 "DONE"; userCard_of := NotIncluded |})
  /\ fst (CardPersistence.findCardById (JNum 3) Sample.board)
     = Ok (Some {| dataValues := Sample.card 3 7 "DONE";
                   userCard_of := Included (Some Sample.ana) |})
  /\ fst (CardPersistence.findCardByParameters
            [Sample.by_field "status" (JStr "TO-DO"); Sample.by_field "status" (JStr "DONE")]
            Sample.board)
     = Ok (Some {| dataValues := Sample.card 3 7 "DONE"; userCard_of := NotIncluded |})
  /\ satisfies_all
       [Sample.by_field "status" (JStr "TO-DO"); Sample.by_field "status" (JStr "DONE")]
       (Sample.card 3 7 "DONE") = false.
Proof. repeat apply conj; vm_compute; reflexivity. Qed.

Lemma C8_open_routes_witness :
  Router.requires_token
    {| Router.method := Router.GET; Router.path := "/cards/:id";
       Router.middlewares := [Router.verifyJWTToken];
       Router.handler := Router.CardController_findCardById |} = true.
Proof.
  destruct C8_open_routes as (_ & _ & _ & Hother & _).
  apply (Hother Router.GET "/cards/5").
  - vm_compute. reflexivity.
  - by_evaluation.
Defined.

(** C9 does not hold as it is written: the message of the payload is not
    "Route not found"; and a request that no route takes, but whose path
    gives [/cards/:id] a parameter that cannot be decoded, gets no answer
    from the router at all. *)
Lemma C9_counterexample :
  Router.req_route Router.GET "/nothing" = None
  /\ responses (Router.router_handle Router.GET "/nothing") Sample.board
     = [(404, BError {| code := 404; type := "error"; message := "Rota não encontrada";
                        date := "1" |})]
  /\ "Rota não encontrada" <> "Route not found"
  /\ Router.req_route Router.POST "/cards/%E0%A4%A" = None
  /\ responses (Router.router_handle Router.POST "/cards/%E0%A4%A") Sample.board = [].
Proof.
  split; [vm_compute; reflexivity |].
  split; [vm_compute; reflexivity |].
  split; [discriminate |].
  split; vm_compute; reflexivity.
Qed.

Lemma C9_fallback_404_witness :
  responses (Router.router_handle Router.GET "/nothing") Sample.board
  = [(404, BError {| code := 404; type := "error"; message := "Rota não encontrada";
                     date := "1" |})]
  /\ Router.router_handle Router.POST "/cards/%E0%A4%A" Sample.board
     = (Throw URIError, Sample.board).
Proof.
  split.
  - destruct (C9_fallback_404 Router.GET "/nothing" Sample.board) as [Hfallback _].
    + vm_compute. reflexivity.
    + destruct Hfallback as (_ & _ & Hsent & _); [vm_compute; reflexivity | exact Hsent].
  - destruct (C9_fallback_404 Router.POST "/cards/%E0%A4%A" Sample.board) as [_ Herror].
    + vm_compute. reflexivity.
    + apply Herror. vm_compute. reflexivity.
Defined.

Lemma C10_positional_slots_witness :
  length (CardController.cardsTotal_of (grouped_count (cards Sample.five_statuses))) = 5%nat
  /\ CardController.cardsTotal_of (grouped_count (cards Sample.only_done)) !! 1%nat = Some 0.
Proof.
  split.
  - destruct (C10_positional_slots Sample.count_all Sample.five_statuses)
      as (_ & _ & _ & _ & _ & _ & _ & _ & _ & Hmany & _).
    destruct Hmany as [Hlen _]; [vm_compute; lia |].
    etransitivity; [exact Hlen |]. vm_compute. reflexivity.
  - destruct (C10_positional_slots Sample.count_all Sample.only_done)
      as (_ & _ & _ & _ & _ & _ & _ & _ & _ & _ & Hfew & _).
    apply (Hfew 1%nat). vm_compute. lia.
Defined.

(** ** More of the code at work *)

Lemma sample_keys_distinguished : keys_distinguished.
Proof.
  intros a b id Ha Hb. simpl in Ha, Hb. unfold Sample.eq_value in Ha, Hb.
  apply bool_decide_eq_true in Ha, Hb. congruence.
Qed.

Lemma delete_not_found_witness :
  responses (CardController.deleteCard Sample.for_card_99) Sample.board
  = [(404, error_body 404 "warning" "Card não encontrado" 1000)]
  /\ cards (run (CardController.deleteCard Sample.for_card_99) Sample.board)
     = cards Sample.board.
Proof.
  destruct (delete_not_found Sample.for_card_99 Sample.board)
    as (_ & Hsent & _ & _ & Hcards & _).
  - apply Forall_forall. by_evaluation.
  - exact (conj Hsent Hcards).
Defined.

Lemma delete_found_witness :
  responses (CardController.deleteCard Sample.for_card_3) Sample.board
  = [(200, BInstance {| dataValues := Sample.card 3 7 "DONE";
                        userCard_of := NotIncluded |})]
  /\ cards (run (CardController.deleteCard Sample.for_card_3) Sample.board)
     = [Sample.card 1 7 "TO-DO"; Sample.card 2 7 "TO-DO"].
Proof.
  destruct (delete_found Sample.for_card_3 Sample.board (Sample.card 3 7 "DONE"))
    as (Hsent & Hcards & _).
  - vm_compute. reflexivity.
  - split; [exact Hsent |]. rewrite Hcards. vm_compute. reflexivity.
Defined.

Lemma delete_then_find_witness :
  responses (CardController.findCardById Sample.for_card_3)
    (run (CardController.deleteCard Sample.for_card_3) Sample.board)
  = [(500, error_body 500 "error" "Card não encontrado" 1000)].
Proof.
  apply (delete_then_find Sample.for_card_3 Sample.board (Sample.card 3 7 "DONE")).
  - exact sample_keys_distinguished.
  - vm_compute. reflexivity.
Defined.

Lemma update_found_witness :
  responses (CardController.updateCard Sample.retitle_3) Sample.board
  = [(200, BInstance
             {| dataValues := {| cardId := 3; userId := DInt 7; title := DStr "new";
                                 content := DStr "c"; status := DStr "DONE";
                                 createdAt := DStr "0"; updatedAt := DStr "1" |};
                userCard_of := Included (Some Sample.ana) |})]
  /\ length (cards (run (CardController.updateCard Sample.retitle_3) Sample.board))
     = 3%nat.
Proof.
  destruct (update_found Sample.retitle_3 Sample.board (Sample.card 3 7 "DONE")
              {| cardId := 3; userId := DInt 7; title := DStr "new";
                 content := DStr "c"; status := DStr "DONE";
                 createdAt := DStr "0"; updatedAt := DStr "1" |})
    as (Hsent & _ & _ & _ & _ & _ & _ & _ & Hlen & _).
  - vm_compute. reflexivity.
  - vm_compute. reflexivity.
  - exact (conj Hsent Hlen).
Defined.

Lemma update_rejected_witness :
  responses (CardController.updateCard Sample.bad_update_3) Sample.board
  = [(500, error_body 500 "error"
             "Falha ao alterar o cadastro do card, tente novamente mais tarde" 1000)]
  /\ cards (run (CardController.updateCard Sample.bad_update_3) Sample.board)
     = cards Sample.board.
Proof.
  destruct (update_rejected Sample.bad_update_3 Sample.board (Sample.card 3 7 "DONE")
              "userId" INTEGER)
    as (Hsent & _ & Hcards & _).
  - vm_compute. reflexivity.
  - apply list_elem_of_here.
  - vm_compute. discriminate.
  - vm_compute. reflexivity.
  - exact (conj Hsent Hcards).
Defined.

Lemma create_duplicate_key_witness :
  responses (CardController.createCard Sample.keyed_3) Sample.board
  = [(500, error_body 500 "error"
             "Falha ao gerar o cadastro do card, tente novamente mais tarde" 1000)]
  /\ cards (run (CardController.createCard Sample.keyed_3) Sample.board)
     = cards Sample.board.
Proof.
  destruct (create_duplicate_key Sample.keyed_3 Sample.board 3)
    as (Hsent & _ & Hcards & _).
  - vm_compute. discriminate.
  - vm_compute. discriminate.
  - vm_compute. reflexivity.
  - by_evaluation.
  - exact (conj Hsent Hcards).
Defined.

Lemma create_then_find_witness :
  responses (CardController.findCardById Sample.for_card_4)
    (run (CardController.createCard Sample.unkeyed) Sample.board)
  = [(200, BInstance {| dataValues := dataValues (Sample.new_row 4 "1" "1");
                        userCard_of := Included (Some Sample.ana) |})].
Proof.
  apply (create_then_find Sample.unkeyed Sample.for_card_4 Sample.board
           (Sample.new_row 4 "1" "1") "4").
  - exact sample_keys_distinguished.
  - vm_compute. reflexivity.
  - vm_compute. reflexivity.
  - vm_compute. reflexivity.
Defined.

Lemma create_then_count_witness :
  responses (CardController.countCards Sample.count_all)
    (run (CardController.createCard Sample.unkeyed) Sample.board)
  = [(200, BCounts [3; 1; 0; 4])].
Proof.
  destruct (create_then_count Sample.unkeyed Sample.count_all Sample.board
              (Sample.new_row 4 "1" "1")) as (_ & Hnow & _).
  - vm_compute. reflexivity.
  - vm_compute. reflexivity.
  - etransitivity; [exact Hnow |]. vm_compute. reflexivity.
Defined.

Lemma create_then_search_witness :
  bucket JUndefined "TO-DO" (run (CardController.createCard Sample.keyed) Sample.board)
  ≡ₚ [{| dataValues := dataValues (Sample.new_row (-3) "1" "1");
         userCard_of := Included (Some Sample.ana) |}]
     ++ bucket JUndefined "TO-DO" Sample.board.
Proof.
  destruct (create_then_search Sample.keyed Sample.count_all Sample.board
              (Sample.new_row (-3) "1" "1")) as (_ & Hbucket & _).
  - vm_compute. reflexivity.
  - exact (Hbucket "TO-DO").
Defined.

Lemma findCardByParameters_distinct_witness :
  fst (CardPersistence.findCardByParameters
         [Sample.by_field "userId" (JNum 7); Sample.by_field "status" (JStr "DONE")]
         Sample.board)
  = Ok (Some {| dataValues := Sample.card 3 7 "DONE"; userCard_of := NotIncluded |})
  /\ fst (CardPersistence.findCardByParameters [] Sample.board)
     = Ok (Some {| dataValues := Sample.card 1 7 "TO-DO"; userCard_of := NotIncluded |}).
Proof.
  split.
  - etransitivity.
    + apply findCardByParameters_distinct; [by_evaluation |].
      repeat constructor; eexists; reflexivity.
    + vm_compute. reflexivity.
  - etransitivity.
    + apply findCardByParameters_distinct; [apply NoDup_nil_2 | constructor].
    + vm_compute. reflexivity.
Defined.

Lemma delete_removes_one_witness :
  length (cards Sample.board)
  = S (length (cards (run (CardController.deleteCard Sample.for_card_3) Sample.board)))
  /\ responses (CardController.countCards Sample.count_all)
       (run (CardController.deleteCard Sample.for_card_3) Sample.board)
     = [(200, BCounts [2; 0; 0; 2])].
Proof.
  destruct (delete_removes_one Sample.for_card_3 Sample.count_all Sample.board
              (Sample.card 3 7 "DONE")) as (_ & Hlen & _ & Hsent).
  - by_evaluation.
  - vm_compute. reflexivity.
  - vm_compute. reflexivity.
  - split; [exact Hlen |]. etransitivity; [exact Hsent |]. vm_compute. reflexivity.
Defined.


